(** * mcp-guard: a shallow embedding of the guard proxy

    The development follows the three source files of the repository:
    - [Js]     the few JavaScript string operations the code relies on;
    - [Proxy]  [src/proxy.js]: path normalisation, header sanitising, the
               streaming size limiter and the request handler with the event
               handlers it registers on the two connections;
    - [Cors]   [src/cors.js], which [proxy.js] receives as an injected
               dependency;
    - [Config] [src/config.js]: the allow-list parser and [readConfig].

    Strings are byte strings: header names, paths and origins are ASCII in
    HTTP, so [toLowerCase] and [trim] are the ASCII ones.  A JavaScript object
    used as a header dictionary is a [gmap string string]; a [Set] of strings
    is a [gset string]. *)

From stdpp Require Import gmap strings list fin_maps.
From Stdlib Require Import ZArith Ascii.
From Stdlib Require QArith Qreduction.

Local Open Scope Z_scope.

(** ** JavaScript string helpers *)

Module Js.

(** [c.toLowerCase()] on one ASCII character. *)
Definition lower_ascii (c : ascii) : ascii :=
  let n := N_of_ascii c in
  if ((65 <=? n) && (n <=? 90))%N then ascii_of_N (n + 32) else c.

(** [s.toLowerCase()] *)
Fixpoint toLowerCase (s : string) : string :=
  match s with
  | EmptyString => EmptyString
  | String c s' => String (lower_ascii c) (toLowerCase s')
  end.

(** The truth value of a string: only the empty string is falsy. *)
Definition truthy (s : string) : bool :=
  match s with EmptyString => false | _ => true end.

(** The truth value of [string | null | undefined]. *)
Definition truthy_opt (o : option string) : bool :=
  match o with Some s => truthy s | None => false end.

(** [s.split(sep)] for a one-character separator: never an empty list. *)
Fixpoint split (sep : ascii) (s : string) : list string :=
  match s with
  | EmptyString => [EmptyString]
  | String c s' =>
      if decide (c = sep) then EmptyString :: split sep s'
      else match split sep s' with
           | [] => [String c EmptyString]
           | w :: ws => String c w :: ws
           end
  end.

(** [s.split(sep)[0]] *)
Definition split_head (sep : ascii) (s : string) : string :=
  match split sep s with w :: _ => w | [] => EmptyString end.

(** [s.trimStart()], ASCII white space. *)
Fixpoint trimStart (s : string) : string :=
  match s with
  | String c s' => if Ascii.is_space c then trimStart s' else s
  | EmptyString => EmptyString
  end.

(** [s.trim()] *)
Definition trim (s : string) : string :=
  String.rev (trimStart (String.rev (trimStart s))).

(** [s.replace(/\/+$/, empty)]: drop every trailing slash. *)
Fixpoint dropLeadingSlashes (s : string) : string :=
  match s with
  | String "/" s' => dropLeadingSlashes s'
  | _ => s
  end.

Definition stripTrailingSlashes (s : string) : string :=
  String.rev (dropLeadingSlashes (String.rev s)).

(** [s.replace(":", empty)]: a string pattern replaces its first occurrence only. *)
Fixpoint removeFirstColon (s : string) : string :=
  match s with
  | EmptyString => EmptyString
  | String c s' => if decide (c = ":"%char) then s' else String c (removeFirstColon s')
  end.

(** [s.startsWith("/")] *)
Definition startsWithSlash (s : string) : bool :=
  match s with String "/" _ => true | _ => false end.

(** [s.length] as a JavaScript number. *)
Definition length (s : string) : Z := Z.of_nat (String.length s).

End Js.

(** ** src/proxy.js *)

Module Proxy.

(** A header dictionary: a JavaScript object with string keys. *)
Abbreviation Headers := (gmap string string).

(** An [Error] object: its message and its optional [code] property. *)
Record Error := { message : string; code : option string }.

Definition normalizePath (p : string) : string :=
  let s := p in
  let noQuery := Js.split_head "#" (Js.split_head "?" s) in
  let withoutTrailing :=
    if decide (noQuery ≠ "/") then Js.stripTrailingSlashes noQuery else noQuery in
  if Js.truthy withoutTrailing then withoutTrailing else "/".

Definition isHopByHopHeader (name : string) : bool :=
  let n := Js.toLowerCase name in
  bool_decide (n = "connection") ||
  bool_decide (n = "keep-alive") ||
  bool_decide (n = "proxy-authenticate") ||
  bool_decide (n = "proxy-authorization") ||
  bool_decide (n = "te") ||
  bool_decide (n = "trailer") ||
  bool_decide (n = "transfer-encoding") ||
  bool_decide (n = "upgrade").

(** The test of the loop body of [sanitizeRequestHeaders]: [true] when the
    entry reaches [out[key] = v], [false] on each [continue]. *)
Definition requestHeaderKept (key : string) : bool :=
  if negb (Js.truthy key) then false
  else
    let lower := Js.toLowerCase key in
    if bool_decide (lower = "host") then false
    else if isHopByHopHeader lower then false
    else true.

(** The loop copies the kept entries of [inHeaders] into a fresh object. *)
Definition sanitizeRequestHeaders (inHeaders : Headers) : Headers :=
  filter (λ kv, requestHeaderKept kv.1 = true) inHeaders.

(** The loop of the response callback: [if (!k) continue;
    if (isHopByHopHeader(k)) continue; outHeaders[k] = v]. *)
Definition responseHeaderKept (k : string) : bool :=
  if negb (Js.truthy k) then false
  else if isHopByHopHeader k then false
  else true.

Definition sanitizeResponseHeaders (upHeaders : Headers) : Headers :=
  filter (λ kv, responseHeaderKept kv.1 = true) upHeaders.

(** *** createSizeLimitStream *)

Definition bodyTooLarge : Error :=
  {| message := "Body too large"; code := Some "BODY_TOO_LARGE" |}.

Global Arguments bodyTooLarge : simpl never.

(** What [transform] hands to its callback: [cb(err)] or [cb(null, chunk)]. *)
Inductive Callback :=
| CbError (err : Error)
| CbPush (chunk : string).

(** One call of [transform(chunk, _enc, cb)]: the closure variable [seen]
    before the call, and after it with the callback's arguments. *)
Definition transform (maxBytes : Z) (seen : Z) (chunk : string) : Z * Callback :=
  let seen := seen + Js.length chunk in
  if seen >? maxBytes then (seen, CbError bodyTooLarge)
  else (seen, CbPush chunk).

Global Arguments transform : simpl never.

(** The stream fed a sequence of chunks: the chunks pushed downstream, and
    the error that ended it, if any.  A [Transform] whose callback received
    an error is destroyed and takes no further chunk. *)
Fixpoint limiterRun (maxBytes : Z) (seen : Z) (chunks : list string)
  : list string * option Error :=
  match chunks with
  | [] => ([], None)
  | c :: cs =>
      match transform maxBytes seen c with
      | (_, CbError e) => ([], Some e)
      | (seen', CbPush c') =>
          let '(out, err) := limiterRun maxBytes seen' cs in (c' :: out, err)
      end
  end.

Definition createSizeLimitStream (maxBytes : Z) (chunks : list string) :=
  limiterRun maxBytes 0 chunks.


(** *** The request handler *)

(** The fields of a WHATWG [URL] object that the handler reads. *)
Record URL := {
  url_protocol : string;
  url_hostname : string;
  url_port : string;
  url_pathname : string;
  url_search : string;
  url_origin : string }.

(** A JavaScript number as [Number(...)] returns it. *)
Inductive JsNumber :=
| NaN
| Infinite
| Finite (q : QArith_base.Q).

(** [Number.isFinite(n) && n > bound] *)
Definition finiteAndGreater (n : JsNumber) (bound : Z) : bool :=
  match n with
  | Finite q => negb (QArith_base.Qle_bool q (QArith_base.inject_Z bound))
  | _ => false
  end.

Record Config := {
  port : Z;
  mcpPath : string;
  upstreamUrl : URL;
  maxBodyBytes : Z;
  upstreamTimeoutMs : Z;
  authBearerToken : option string;
  allowedOrigins : gset string }.

(** The inbound request: [req.url], [req.method], [req.headers] (Node gives
    lower-case names) and [req.socket?.remoteAddress]. *)
Record Request := {
  req_url : option string;
  req_method : option string;
  req_headers : Headers;
  req_remoteAddress : option string }.

(** [node:http] or [node:https] *)
Inductive UpstreamClient := http | https.

(** The options object passed to [upstreamClient.request]. *)
Record RequestOptions := {
  o_client : UpstreamClient;
  o_protocol : string;
  o_hostname : string;
  o_port : option string;
  o_method : string;
  o_path : string;
  o_headers : Headers;
  o_timeout : Z }.

(** The effects of a request on its two connections, in the order they
    happen: what reaches the client through [res] and the upstream through
    [upstreamReq]. *)
Inductive Effect :=
| ResWriteHead (status : Z) (h : Headers)
| ResEnd (body : option string)
| ResPipe
| ResDestroy (err : Error)
| UpRequest (o : RequestOptions)
| UpWrite (chunk : string)
| UpEnd
| UpDestroy (err : option Error).

(** The state of one forwarded request after [handler] has returned: the
    closure variables the registered listeners read ([cors], the limiter's
    [maxBytes] and [seen]), the flags of the Node objects they test or set,
    and the effects so far. *)
Record Exchange := mkExchange {
  cors : option Headers;
  maxBytes : Z;
  seen : Z;
  limiterDestroyed : bool;
  headersSent : bool;
  resClosed : bool;
  upDestroyed : bool;
  upResponded : bool;
  trace : list Effect }.

Inductive Outcome :=
| Thrown
| Responded (tr : list Effect)
| Forwarding (x : Exchange).

Definition dquote : ascii := ascii_of_N 34.

(** [JSON.stringify({ ok: true })] *)
Definition healthBody : string :=
  "{" +:+ String dquote ("ok" +:+ String dquote ":true}").

Definition textPlain : Headers :=
  {[ "Content-Type" := "text/plain; charset=utf-8";
     "X-Content-Type-Options" := "nosniff" ]}.

Definition applicationJson : Headers :=
  {[ "Content-Type" := "application/json; charset=utf-8";
     "X-Content-Type-Options" := "nosniff" ]}.

Global Arguments textPlain : simpl never.
Global Arguments applicationJson : simpl never.

(** [res.writeHead(status, h); return res.end(body)] on a fresh response. *)
Definition respond (status : Z) (h : Headers) (body : option string) : Outcome :=
  Responded [ResWriteHead status h; ResEnd body].

Definition MCP_METHODS : list string := ["POST"; "GET"; "DELETE"].

(** [obj[key] ?? dflt] *)
Definition getOr (h : Headers) (key dflt : string) : string :=
  default dflt (h !! key).

Definition setSeen (n : Z) (x : Exchange) : Exchange :=
  mkExchange (cors x) (maxBytes x) n (limiterDestroyed x) (headersSent x)
    (resClosed x) (upDestroyed x) (upResponded x) (trace x).

Definition setLimiterDestroyed (x : Exchange) : Exchange :=
  mkExchange (cors x) (maxBytes x) (seen x) true (headersSent x)
    (resClosed x) (upDestroyed x) (upResponded x) (trace x).

Definition setHeadersSent (x : Exchange) : Exchange :=
  mkExchange (cors x) (maxBytes x) (seen x) (limiterDestroyed x) true
    (resClosed x) (upDestroyed x) (upResponded x) (trace x).

Definition setResClosed (x : Exchange) : Exchange :=
  mkExchange (cors x) (maxBytes x) (seen x) (limiterDestroyed x) (headersSent x)
    true (upDestroyed x) (upResponded x) (trace x).

Definition setUpDestroyed (x : Exchange) : Exchange :=
  mkExchange (cors x) (maxBytes x) (seen x) (limiterDestroyed x) (headersSent x)
    (resClosed x) true (upResponded x) (trace x).

Definition setUpResponded (x : Exchange) : Exchange :=
  mkExchange (cors x) (maxBytes x) (seen x) (limiterDestroyed x) (headersSent x)
    (resClosed x) (upDestroyed x) true (trace x).

Definition emit (e : Effect) (x : Exchange) : Exchange :=
  mkExchange (cors x) (maxBytes x) (seen x) (limiterDestroyed x) (headersSent x)
    (resClosed x) (upDestroyed x) (upResponded x) (trace x ++ [e]).

(** **** The Node objects the listeners act on

    [res] is a [ServerResponse].  Once its connection has closed nothing
    written to it reaches the client; [writeHead] still marks the headers as
    sent. *)
Definition res_writeHead (status : Z) (h : Headers) (x : Exchange) : Exchange :=
  setHeadersSent (if resClosed x then x else emit (ResWriteHead status h) x).

Definition res_end (body : option string) (x : Exchange) : Exchange :=
  if resClosed x then x else emit (ResEnd body) x.

Definition res_pipe (x : Exchange) : Exchange :=
  if resClosed x then x else emit ResPipe x.

Definition res_destroy (err : Error) (x : Exchange) : Exchange :=
  if resClosed x then x else setResClosed (emit (ResDestroy err) x).

(** [upstreamReq] is a [ClientRequest].  A destroyed request takes no more
    data. *)
Definition upstreamReq_write (chunk : string) (x : Exchange) : Exchange :=
  if upDestroyed x then x else emit (UpWrite chunk) x.

Definition upstreamReq_end (x : Exchange) : Exchange :=
  if upDestroyed x then x else emit UpEnd x.

(** [upstreamReq.on("error", (err) => ...)] *)
Definition onUpstreamError (err : Error) (x : Exchange) : Exchange :=
  if headersSent x then res_destroy err x
  else
    let code := if bool_decide (code err = Some "BODY_TOO_LARGE") then 413 else 502 in
    res_end (Some (if code =? 413 then "Request too large" else "Bad gateway"))
      (res_writeHead code textPlain x).

(** [upstreamReq.destroy(err)]: nothing on a request already destroyed;
    otherwise the request is torn down and, when an error is given, Node
    emits it as the request's [error] event.  Node does so on a later tick;
    here the error listener runs at once. *)
Definition upstreamReq_destroy (err : option Error) (x : Exchange) : Exchange :=
  if upDestroyed x then x
  else
    let x := emit (UpDestroy err) (setUpDestroyed x) in
    match err with
    | Some e => onUpstreamError e x
    | None => x
    end.

Definition upstreamTimeout : Error :=
  {| message := "Upstream timeout"; code := None |}.

(** [upstreamReq.on("timeout", () => ...)] *)
Definition onUpstreamTimeout (x : Exchange) : Exchange :=
  upstreamReq_destroy (Some upstreamTimeout) x.

(** [res.on("close", () => ...)] *)
Definition onResClose (x : Exchange) : Exchange :=
  upstreamReq_destroy None x.

(** [limiter.on("error", (err) => upstreamReq.destroy(err))] *)
Definition onLimiterError (err : Error) (x : Exchange) : Exchange :=
  upstreamReq_destroy (Some err) x.

(** [outHeaders] of the response callback: the sanitised upstream headers,
    then [Object.assign(outHeaders, cors)] when [cors] is truthy, then the
    nosniff entry. *)
Definition relayHeaders (cors : option Headers) (upHeaders : Headers) : Headers :=
  let outHeaders := sanitizeResponseHeaders upHeaders in
  let outHeaders :=
    match cors with
    | Some c => c ∪ outHeaders
    | None => outHeaders
    end in
  <["X-Content-Type-Options" := "nosniff"]> outHeaders.

Global Arguments relayHeaders : simpl never.

(** The response callback given to [upstreamClient.request];
    [statusCode] is [upstreamRes.statusCode]. *)
Definition onUpstreamResponse (statusCode : option Z) (upHeaders : Headers)
    (x : Exchange) : Exchange :=
  res_pipe (res_writeHead (default 502 statusCode) (relayHeaders (cors x) upHeaders) x).

(** A chunk of the request body going through [req.pipe(limiter)] and from
    there, when [transform] pushes it, through [.pipe(upstreamReq)]. *)
Definition onRequestData (chunk : string) (x : Exchange) : Exchange :=
  if limiterDestroyed x then x
  else
    match transform (maxBytes x) (seen x) chunk with
    | (n, CbError err) => onLimiterError err (setLimiterDestroyed (setSeen n x))
    | (n, CbPush c) => upstreamReq_write c (setSeen n x)
    end.

(** The end of the request body: the pipes end the limiter and then
    [upstreamReq]. *)
Definition onRequestEnd (x : Exchange) : Exchange :=
  if limiterDestroyed x then x else upstreamReq_end x.

(** The events Node delivers to the listeners of a forwarded request. *)
Inductive Event :=
| RequestData (chunk : string)
| RequestEnd
| UpstreamResponse (statusCode : option Z) (upHeaders : Headers)
| UpstreamTimeout
| UpstreamError (err : Error)
| ResClose.

(** Node marks a request destroyed when it emits its [error]; it emits
    [response] once and never on a destroyed request; [close] on [res] means
    the connection to the client is gone. *)
Definition step (x : Exchange) (ev : Event) : Exchange :=
  match ev with
  | RequestData chunk => onRequestData chunk x
  | RequestEnd => onRequestEnd x
  | UpstreamResponse statusCode upHeaders =>
      if upDestroyed x || upResponded x then x
      else onUpstreamResponse statusCode upHeaders (setUpResponded x)
  | UpstreamTimeout => onUpstreamTimeout x
  | UpstreamError err => onUpstreamError err (setUpDestroyed x)
  | ResClose => onResClose (setResClosed x)
  end.

Definition run (x : Exchange) (evs : list Event) : Exchange :=
  foldl step x evs.

(** The header set sent upstream: the sanitised request headers with the
    three forwarding headers assigned after them. *)
Definition outboundHeaders (req : Request) (url : URL) : Headers :=
  let headers := sanitizeRequestHeaders (req_headers req) in
  let headers :=
    <["X-Forwarded-Proto" := Js.removeFirstColon (url_protocol url)]> headers in
  let headers :=
    <["X-Forwarded-Host" := getOr (req_headers req) "host" EmptyString]> headers in
  <["X-Forwarded-For" := default EmptyString (req_remoteAddress req)]> headers.

(** The argument of [upstreamClient.request].  [target] is a copy of
    [upstreamUrl] whose [search] is the one of the incoming request. *)
Definition requestOptions (config : Config) (req : Request) (url : URL)
  : RequestOptions :=
  let upstreamClient :=
    if bool_decide (url_protocol (upstreamUrl config) = "https:") then https else http in
  let target := upstreamUrl config in
  {| o_client := upstreamClient;
     o_protocol := url_protocol target;
     o_hostname := url_hostname target;
     o_port := if Js.truthy (url_port target) then Some (url_port target) else None;
     o_method := default EmptyString (req_method req);
     o_path := url_pathname target +:+ url_search url;
     o_headers := outboundHeaders req url;
     o_timeout := upstreamTimeoutMs config |}.

(** The exchange as the handler leaves it: the upstream request created, the
    listeners registered, the limiter fresh and nothing sent to the client. *)
Definition dispatch (config : Config) (cors : option Headers)
    (options : RequestOptions) : Exchange :=
  mkExchange cors (maxBodyBytes config) 0 false false false false false
    [UpRequest options].

Section Handler.

(** [corsHeadersForOrigin] is the dependency injected into
    [createProxyHandler]: [None] is its falsy result.  [newURL input base]
    is [new URL(input, base)], [None] when the constructor throws, and
    [Number] is the global of that name. *)
Variable corsHeadersForOrigin : string → gset string → option Headers.
Variable newURL : string → string → option URL.
Variable Number : string → JsNumber.

Definition createProxyHandler (config : Config) (req : Request) : Outcome :=
  if negb (Js.truthy_opt (req_url req)) || negb (Js.truthy_opt (req_method req)) then
    respond 400 textPlain (Some "Bad request")
  else
    let method := default EmptyString (req_method req) in
    match newURL (default EmptyString (req_url req))
                 ("http://" +:+ getOr (req_headers req) "host" "localhost") with
    | None => Thrown
    | Some url =>
      let path := normalizePath (url_pathname url) in
      if bool_decide (method = "GET") && bool_decide (path = "/health") then
        respond 200 applicationJson (Some healthBody)
      else
        let origin := getOr (req_headers req) "origin" EmptyString in
        let cors := corsHeadersForOrigin origin (allowedOrigins config) in
        if bool_decide (method = "OPTIONS") && bool_decide (path = mcpPath config) then
          match cors with
          | None => respond 403 textPlain (Some "Origin not allowed")
          | Some c =>
              respond 204 (<["X-Content-Type-Options" := "nosniff"]> c) None
          end
        else if bool_decide (path ≠ mcpPath config)
                || negb (bool_decide (method ∈ MCP_METHODS)) then
          respond 404 textPlain (Some "Not found")
        else if Js.truthy origin && negb (bool_decide (is_Some cors)) then
          respond 403 textPlain (Some "Origin not allowed")
        else if Js.truthy_opt (authBearerToken config)
                && negb (bool_decide
                     (getOr (req_headers req) "authorization" EmptyString
                      = "Bearer " +:+ default EmptyString (authBearerToken config))) then
          respond 401 textPlain (Some "Unauthorized")
        else
          let contentLength :=
            match req_headers req !! "content-length" with
            | Some s => Number s
            | None => Finite (QArith_base.inject_Z 0)
            end in
          if finiteAndGreater contentLength (maxBodyBytes config) then
            respond 413 textPlain (Some "Request too large")
          else
            Forwarding (dispatch config cors (requestOptions config req url))
    end.

(** Everything the two connections see for one request: the handler, then
    the events of the exchange when the request was forwarded. *)
Definition serve (config : Config) (req : Request) (evs : list Event)
  : option (list Effect) :=
  match createProxyHandler config req with
  | Thrown => None
  | Responded tr => Some tr
  | Forwarding x => Some (trace (run x evs))
  end.

End Handler.

End Proxy.

(** ** src/cors.js *)

Module Cors.

Section Evaluator.

(** The values of the allowed-methods and allowed-headers entries. *)
Variables allowMethods allowHeaders : string.

(** Modelled from the spec: [src/cors.js], which exports
    [corsHeadersForOrigin], is not among the sources.  The evaluator is a
    membership test of the origin string in the allow-list; on success it
    answers with the origin echoed in Access-Control-Allow-Origin, Vary:
    Origin, the allowed methods and the allowed headers, and otherwise it
    denies. *)
Definition corsHeadersForOrigin (origin : string) (allowedOrigins : gset string)
  : option Proxy.Headers :=
  if decide (origin ∈ allowedOrigins) then
    Some {[ "Access-Control-Allow-Origin" := origin;
            "Vary" := "Origin";
            "Access-Control-Allow-Methods" := allowMethods;
            "Access-Control-Allow-Headers" := allowHeaders ]}
  else None.

End Evaluator.

End Cors.

(** ** src/config.js *)

Module Config.

Import Proxy.

Definition DEFAULT_ALLOWED_ORIGINS : list string :=
  ["https://chatgpt.com"; "https://chat.openai.com"].

(** The environment: each variable is a string or undefined. *)
Record Env := {
  PORT : option string;
  MCP_PATH : option string;
  UPSTREAM_URL : option string;
  ALLOWED_ORIGINS : option string;
  MAX_BODY_BYTES : option string;
  AUTH_BEARER_TOKEN : option string;
  UPSTREAM_TIMEOUT_MS : option string }.

(** The two ways [readConfig] throws. *)
Inductive ConfigError :=
| InvalidEnvironment
| InvalidUpstreamUrl.

(** [Number.isInteger]: the integer a finite number is, if it is one. *)
Definition asInteger (n : JsNumber) : option Z :=
  match n with
  | Finite q =>
      let r := Qreduction.Qred q in
      if decide (QArith_base.Qden r = 1%positive) then Some (QArith_base.Qnum r) else None
  | _ => None
  end.

(** [parts] of [parseAllowedOrigins]: the comma-separated entries, trimmed,
    the empty ones removed. *)
Definition parts (raw : option string) : list string :=
  filter (λ s, Js.truthy s = true)
    (map Js.trim (Js.split "," (default EmptyString raw))).

Section ReadConfig.

(** [newURL input] is [new URL(input)], [None] when the constructor throws;
    [Number] is the global that [z.coerce.number()] applies. *)
Variable newURL : string → option URL.
Variable Number : string → JsNumber.

Definition normalizeOrigin (input : string) : option string :=
  match newURL input with
  | Some u => Some (url_origin u)
  | None => None
  end.

(** The [for] loop of [parseAllowedOrigins], one part at a time. *)
Definition addOrigin (set : gset string) (p : string) : gset string :=
  match normalizeOrigin p with
  | Some o => if Js.truthy o then {[ o ]} ∪ set else set
  | None => set
  end.

Definition parseAllowedOrigins (raw : option string) : gset string :=
  let set : gset string := list_to_set DEFAULT_ALLOWED_ORIGINS in
  foldl addOrigin set (parts raw).

(** [z.coerce.number().int().min(lo).max(hi).default(dflt)] *)
Definition coerceInt (lo hi dflt : Z) (v : option string) : option Z :=
  match v with
  | None => Some dflt
  | Some s =>
      match asInteger (Number s) with
      | Some n => if (lo <=? n) && (n <=? hi) then Some n else None
      | None => None
      end
  end.

(** [EnvSchema.safeParse(env)]: the parsed data, or [None] on failure. *)
Definition EnvSchema (env : Env)
  : option (Z * string * string * option string * Z * option string * Z) :=
  p ← coerceInt 1 65535 8787 (PORT env);
  let path := default "/mcp" (Js.trim <$> MCP_PATH env) in
  u ← Js.trim <$> UPSTREAM_URL env;
  if negb (1 <=? Js.length u) then None
  else
    m ← coerceInt 1000 50000000 200000 (MAX_BODY_BYTES env);
    t ← coerceInt 1000 (5 * 60000) 30000 (UPSTREAM_TIMEOUT_MS env);
    Some (p, path, u, ALLOWED_ORIGINS env, m, AUTH_BEARER_TOKEN env, t).

Definition readConfig (env : Env) : ConfigError + Config :=
  match EnvSchema env with
  | None => inl InvalidEnvironment
  | Some (PORT, MCP_PATH, UPSTREAM_URL, ALLOWED_ORIGINS, MAX_BODY_BYTES,
          AUTH_BEARER_TOKEN, UPSTREAM_TIMEOUT_MS) =>
      match newURL UPSTREAM_URL with
      | None => inl InvalidUpstreamUrl
      | Some upstreamUrl =>
          inr {| port := PORT;
                 mcpPath := if Js.startsWithSlash MCP_PATH then MCP_PATH
                            else "/" +:+ MCP_PATH;
                 upstreamUrl := upstreamUrl;
                 allowedOrigins := parseAllowedOrigins ALLOWED_ORIGINS;
                 maxBodyBytes := MAX_BODY_BYTES;
                 authBearerToken :=
                   let t := Js.trim (default EmptyString AUTH_BEARER_TOKEN) in
                   if Js.truthy t then Some t else None;
                 upstreamTimeoutMs := UPSTREAM_TIMEOUT_MS |}
      end
  end.

End ReadConfig.

End Config.

(** ** src/cli.js *)

Module Cli.

Import Proxy.

Section Main.

(** [new URL(input)] and [new URL(input, base)], the global [Number], and
    the evaluator imported from [cors.js]. *)
Variable newURL : string → option URL.
Variable newURLBase : string → string → option URL.
Variable Number : string → JsNumber.
Variable corsHeadersForOrigin : string → gset string → option Headers.

(** The script reads the configuration from the environment, which may
    throw, and creates the server's request handler from it. *)
Definition main (env : Config.Env) : Config.ConfigError + (Request → Outcome) :=
  match Config.readConfig newURL Number env with
  | inl e => inl e
  | inr config => inr (createProxyHandler corsHeadersForOrigin newURLBase Number config)
  end.

End Main.

End Cli.

(** ** Instances of the JavaScript globals, for running the model

    The handler and [readConfig] are stated for any [URL] constructor and any
    [Number]; the instances below cover the inputs of the repository's tests:
    origin-form request targets, [scheme://host] origins and decimal
    content lengths. *)

Module Sample.

Import Proxy.

(** The suffix of [s] from the first [c] on. *)
Fixpoint fromChar (c : ascii) (s : string) : string :=
  match s with
  | EmptyString => EmptyString
  | String a s' => if decide (a = c) then s else fromChar c s'
  end.

(** The part of [s] after the prefix [p], if [s] starts with [p]. *)
Fixpoint afterPrefix (p s : string) : option string :=
  match p, s with
  | EmptyString, _ => Some s
  | String a p', String b s' => if decide (a = b) then afterPrefix p' s' else None
  | _, EmptyString => None
  end.

(** [new URL(input, base)] for an origin-form target and an [http://host] base. *)
Definition newURL2 (input base : string) : option URL :=
  match input, afterPrefix "http://" base with
  | String "/" _, Some host =>
      let noHash := Js.split_head "#" input in
      let q := fromChar "?" noHash in
      Some {| url_protocol := "http:";
              url_hostname := Js.split_head ":" host;
              url_port := EmptyString;
              url_pathname := Js.split_head "?" noHash;
              url_search := if decide (q = "?") then EmptyString else q;
              url_origin := base |}
  | _, _ => None
  end.

(** The port of a [host:port] authority, without the default port of the scheme. *)
Definition portOf (scheme host : string) : string :=
  match fromChar ":" host with
  | String _ p =>
      if bool_decide (scheme = "http" ∧ p = "80") || bool_decide (scheme = "https" ∧ p = "443")
      then EmptyString else p
  | EmptyString => EmptyString
  end.

(** [new URL(input)] for [http(s)://host[:port][/path]]. *)
Definition newURL1 (input : string) : option URL :=
  let mk scheme rest :=
    let host := Js.split_head "/" rest in
    let name := Js.split_head ":" host in
    let p := portOf scheme host in
    if Js.truthy name then
      Some {| url_protocol := scheme +:+ ":";
              url_hostname := name;
              url_port := p;
              url_pathname := if Js.truthy (fromChar "/" rest) then fromChar "/" rest else "/";
              url_search := EmptyString;
              url_origin := scheme +:+ "://" +:+ name
                            +:+ (if Js.truthy p then ":" +:+ p else EmptyString) |}
    else None in
  match afterPrefix "https://" input, afterPrefix "http://" input with
  | Some rest, _ => mk "https" rest
  | None, Some rest => mk "http" rest
  | None, None => None
  end.

Fixpoint digits (acc : Z) (s : string) : option Z :=
  match s with
  | EmptyString => Some acc
  | String c s' =>
      match Ascii.is_nat c with
      | Some d => digits (10 * acc + Z.of_nat d) s'
      | None => None
      end
  end.

(** [Number(s)] for a string of decimal digits; [NaN] for anything else. *)
Definition Number (s : string) : JsNumber :=
  match digits 0 s with
  | Some n => Finite (QArith_base.inject_Z n)
  | None => NaN
  end.

Definition cors := Cors.corsHeadersForOrigin "GET,POST,DELETE,OPTIONS" "Content-Type, Authorization".

Definition handler := createProxyHandler cors newURL2 Number.

(** The configuration of the repository's tests. *)
Definition testConfig (maxBody : Z) (token : option string) : Config :=
  {| port := 0;
     mcpPath := "/mcp";
     upstreamUrl :=
       {| url_protocol := "http:"; url_hostname := "127.0.0.1"; url_port := "8788";
          url_pathname := "/mcp"; url_search := EmptyString;
          url_origin := "http://127.0.0.1:8788" |};
     maxBodyBytes := maxBody;
     upstreamTimeoutMs := 30000;
     authBearerToken := token;
     allowedOrigins := {[ "https://chatgpt.com" ]} |}.

Definition request (method target : string) (h : Headers) : Request :=
  {| req_url := Some target; req_method := Some method;
     req_headers := <["host" := "127.0.0.1:8787"]> h;
     req_remoteAddress := Some "127.0.0.1" |}.

(** The target [/mcp] as [newURL2] parses it. *)
Definition mcpURL : URL :=
  {| url_protocol := "http:"; url_hostname := "127.0.0.1"; url_port := EmptyString;
     url_pathname := "/mcp"; url_search := EmptyString;
     url_origin := "http://127.0.0.1:8787" |}.

(** A POST to the proxy path from the allow-listed origin, with no declared
    length: a chunked body. *)
Definition chunkedPost : Request :=
  request "POST" "/mcp" {[ "origin" := "https://chatgpt.com" ]}.

(** A POST to the proxy path from an origin that is not allow-listed and
    without an Authorization header. *)
Definition evilPost : Request :=
  request "POST" "/mcp" {[ "origin" := "https://evil.example" ]}.

(** A POST to the proxy path without an Origin header, declaring 11 bytes. *)
Definition plainPost : Request :=
  request "POST" "/mcp" {[ "content-length" := "11" ]}.

(** A POST to the proxy path with neither Origin nor declared length. *)
Definition barePost : Request := request "POST" "/mcp" ∅.

(** A POST carrying hop-by-hop headers. *)
Definition keepAlivePost : Request :=
  request "POST" "/mcp" {[ "Connection" := "keep-alive"; "accept" := "*/*" ]}.

(** The preflight of the repository's second test. *)
Definition preflight : Request :=
  request "OPTIONS" "/mcp" {[ "origin" := "https://chatgpt.com" ]}.

(** The test configuration with another proxy path. *)
Definition pathConfig (path : string) : Config :=
  {| port := 0;
     mcpPath := path;
     upstreamUrl := upstreamUrl (testConfig 200000 None);
     maxBodyBytes := 200000;
     upstreamTimeoutMs := 30000;
     authBearerToken := Some "secret";
     allowedOrigins := {[ "https://chatgpt.com" ]} |}.

(** The health check, and its target as [newURL2] parses it. *)
Definition healthGet : Request := request "GET" "/health" ∅.

Definition healthURL : URL :=
  {| url_protocol := "http:"; url_hostname := "127.0.0.1"; url_port := EmptyString;
     url_pathname := "/health"; url_search := EmptyString;
     url_origin := "http://127.0.0.1:8787" |}.

(** The headers of an upstream response that sets CORS and sniffing headers
    of its own, named as Node delivers them. *)
Definition corsResponse : Headers :=
  {[ "access-control-allow-origin" := "*"; "x-content-type-options" := "sniff" ]}.

(** An environment that sets the upstream, a proxy path with a trailing
    slash, a body limit and a blank secret. *)
Definition env : Config.Env :=
  {| Config.PORT := None;
     Config.MCP_PATH := Some " /mcp/ ";
     Config.UPSTREAM_URL := Some "http://127.0.0.1:8788/mcp";
     Config.ALLOWED_ORIGINS := None;
     Config.MAX_BODY_BYTES := Some "2000";
     Config.AUTH_BEARER_TOKEN := Some "  ";
     Config.UPSTREAM_TIMEOUT_MS := None |}.

(** What [readConfig] returns for [env]. *)
Definition envConfig : Config :=
  {| port := 8787;
     mcpPath := "/mcp/";
     upstreamUrl :=
       {| url_protocol := "http:"; url_hostname := "127.0.0.1"; url_port := "8788";
          url_pathname := "/mcp"; url_search := EmptyString;
          url_origin := "http://127.0.0.1:8788" |};
     maxBodyBytes := 2000;
     upstreamTimeoutMs := 30000;
     authBearerToken := None;
     allowedOrigins := list_to_set Config.DEFAULT_ALLOWED_ORIGINS |}.

(** An upstream response that names its own host. *)
Definition hostResponse : Headers :=
  {[ "host" := "upstream.internal"; "content-type" := "application/json" ]}.

End Sample.


(** ** Vocabulary of the statements *)

Import Proxy.

(** The number of bytes in a list of chunks. *)
Definition totalBytes (chunks : list string) : Z :=
  foldr (λ c n, Js.length c + n) 0 chunks.

(** The chunks written to the upstream request, in order. *)
Definition written (tr : list Effect) : list string :=
  omap (λ e, match e with UpWrite c => Some c | _ => None end) tr.

(** The body chunks among the events, in order. *)
Definition dataOf (evs : list Event) : list string :=
  omap (λ ev, match ev with RequestData c => Some c | _ => None end) evs.

(** The event is the upstream's response. *)
Definition isResponse (ev : Event) : bool :=
  match ev with UpstreamResponse _ _ => true | _ => false end.

(** [s.endsWith("/")] *)
Definition endsWithSlash (s : string) : bool :=
  Js.startsWithSlash (String.rev s).

(** [s.includes(c)] for one character. *)
Fixpoint hasChar (c : ascii) (s : string) : bool :=
  match s with
  | EmptyString => false
  | String a s' => bool_decide (a = c) || hasChar c s'
  end.

(** The upstream requests opened, in order. *)
Definition opened (tr : list Effect) : list RequestOptions :=
  omap (λ e, match e with UpRequest o => Some o | _ => None end) tr.

(** The limiter is destroyed or the upstream request is: no chunk can be
    written any more. *)
Definition closedForData (x : Exchange) : Prop :=
  limiterDestroyed x = true ∨ upDestroyed x = true.

(** The effects on the upstream connection. *)
Definition isUpstream (e : Effect) : bool :=
  match e with
  | UpRequest _ | UpWrite _ | UpEnd | UpDestroy _ => true
  | _ => false
  end.

(** The effects on the client connection. *)
Definition toClient (tr : list Effect) : list Effect :=
  filter (λ e, isUpstream e = false) tr.

Definition toUpstream (tr : list Effect) : list Effect :=
  filter (λ e, isUpstream e = true) tr.

(** The eight names [isHopByHopHeader] tests for. *)
Definition hopByHop : list string :=
  ["connection"; "keep-alive"; "proxy-authenticate"; "proxy-authorization";
   "te"; "trailer"; "transfer-encoding"; "upgrade"].

(** The three headers the handler adds to the outbound set. *)
Definition forwarded : list string :=
  ["X-Forwarded-Proto"; "X-Forwarded-Host"; "X-Forwarded-For"].

(** *** What the router reads from a request *)

Module Route.

Definition methodOf (req : Request) : string := default EmptyString (req_method req).

Definition pathOf (url : URL) : string := normalizePath (url_pathname url).

Definition originOf (req : Request) : string :=
  getOr (req_headers req) "origin" EmptyString.

Definition authorizationOf (req : Request) : string :=
  getOr (req_headers req) "authorization" EmptyString.

Section Routing.

Variable corsHeadersForOrigin : string → gset string → option Headers.
Variable newURL : string → string → option URL.
Variable Number : string → JsNumber.

(** The request has a method and a target, and [url] is the target parsed. *)
Definition parsed (req : Request) (url : URL) : Prop :=
  Js.truthy_opt (req_url req) = true
  ∧ Js.truthy_opt (req_method req) = true
  ∧ newURL (default EmptyString (req_url req))
           ("http://" +:+ getOr (req_headers req) "host" "localhost") = Some url.

Definition isHealthCheck (req : Request) (url : URL) : Prop :=
  methodOf req = "GET" ∧ pathOf url = "/health".

Definition isPreflight (config : Config) (req : Request) (url : URL) : Prop :=
  methodOf req = "OPTIONS" ∧ pathOf url = mcpPath config.

(** The router's class of requests that go through the origin check, the
    auth gate and the size guard: the proxy path with one of the three
    methods, the health check apart. *)
Definition proxyable (config : Config) (req : Request) (url : URL) : Prop :=
  parsed req url
  ∧ ¬ isHealthCheck req url
  ∧ pathOf url = mcpPath config
  ∧ methodOf req ∈ MCP_METHODS.

Definition corsOf (config : Config) (req : Request) : option Headers :=
  corsHeadersForOrigin (originOf req) (allowedOrigins config).

(** An Origin header is present and the evaluator denies it. *)
Definition originDenied (config : Config) (req : Request) : Prop :=
  originOf req ≠ EmptyString ∧ corsOf config req = None.

(** A secret is configured and the Authorization header is not [Bearer]
    followed by it. *)
Definition unauthorized (config : Config) (req : Request) : Prop :=
  ∃ secret, authBearerToken config = Some secret
    ∧ secret ≠ EmptyString
    ∧ authorizationOf req ≠ "Bearer " +:+ secret.

(** The declared content length exceeds the configured maximum. *)
Definition declaredTooLarge (config : Config) (req : Request) : bool :=
  finiteAndGreater
    match req_headers req !! "content-length" with
    | Some s => Number s
    | None => Finite (QArith_base.inject_Z 0)
    end (maxBodyBytes config).

End Routing.

End Route.

(** The status codes written to the client, in order. *)
Definition statuses (tr : list Effect) : list Z :=
  omap (λ e, match e with ResWriteHead s _ => Some s | _ => None end) tr.

(** The flags and the effects of an exchange agree: headers are marked sent
    only once a response or an error has come from the upstream request, and
    until they are, no status has been written. *)
Definition consistent (x : Exchange) : Prop :=
  (headersSent x = true → upDestroyed x = true ∨ upResponded x = true)
  ∧ (headersSent x = false → statuses (trace x) = [])
  ∧ (length (statuses (trace x)) ≤ 1)%nat.

(** A [writeHead] carries the content-sniffing-prevention header. *)
Definition nosniff (e : Effect) : Prop :=
  match e with
  | ResWriteHead _ h => h !! "X-Content-Type-Options" = Some "nosniff"
  | _ => True
  end.

(** ** The streaming size limiter *)

Section Limiter.

Lemma code_bodyTooLarge :
  bool_decide (code bodyTooLarge = Some "BODY_TOO_LARGE") = true.
Proof. by apply bool_decide_eq_true_2. Qed.

Lemma totalBytes_app (xs ys : list string) :
  totalBytes (xs ++ ys) = totalBytes xs + totalBytes ys.
Proof. induction xs as [|x xs IH]; simpl; [done | rewrite IH; lia]. Qed.

Lemma totalBytes_nonneg (xs : list string) : 0 ≤ totalBytes xs.
Proof. induction xs as [|x xs IH]; simpl; unfold Js.length; lia. Qed.

Lemma transform_cases (maxBytes seen : Z) (chunk : string) :
  (seen + Js.length chunk ≤ maxBytes
   ∧ transform maxBytes seen chunk = (seen + Js.length chunk, CbPush chunk))
  ∨ (maxBytes < seen + Js.length chunk
     ∧ transform maxBytes seen chunk = (seen + Js.length chunk, CbError bodyTooLarge)).
Proof.
  unfold transform.
  destruct (Z.gtb_spec (seen + Js.length chunk) maxBytes); [right | left]; split; done || lia.
Qed.

(** The limiter pushes a prefix of its input, and every pushed chunk left the
    running count within the bound. *)
Lemma limiterRun_prefix (maxBytes : Z) (chunks : list string) (seen : Z) :
  ∃ rest, chunks = (limiterRun maxBytes seen chunks).1 ++ rest
    ∧ match (limiterRun maxBytes seen chunks).2 with
      | None => rest = []
      | Some e =>
          e = bodyTooLarge
          ∧ ∃ c rest', rest = c :: rest'
              ∧ maxBytes < seen + totalBytes ((limiterRun maxBytes seen chunks).1 ++ [c])
      end.
Proof.
  revert seen. induction chunks as [|c cs IH]; intros seen; simpl.
  - by exists [].
  - destruct (transform_cases maxBytes seen c) as [[Hle ->] | [Hgt ->]]; simpl.
    + destruct (IH (seen + Js.length c)) as (rest & Heq & Herr).
      destruct (limiterRun maxBytes (seen + Js.length c) cs) as [out err]; simpl in *.
      exists rest. split; [by f_equal |].
      destruct err as [e|]; [|done].
      destruct Herr as (-> & c' & rest' & -> & Hlt).
      split; [done |]. exists c', rest'. split; [done | lia].
    + exists (c :: cs). split; [done |]. split; [done |].
      exists c, cs. split; [done |]. simpl. lia.
Qed.

Lemma limiterRun_within (maxBytes : Z) (chunks : list string) (seen : Z) (k : nat) :
  (0 < k ≤ length (limiterRun maxBytes seen chunks).1)%nat →
  seen + totalBytes (take k chunks) ≤ maxBytes.
Proof.
  revert seen k. induction chunks as [|c cs IH]; intros seen k; simpl.
  - lia.
  - destruct (transform_cases maxBytes seen c) as [[Hle ->] | [Hgt ->]]; simpl; [|lia].
    specialize (IH (seen + Js.length c)).
    destruct (limiterRun maxBytes (seen + Js.length c) cs) as [out err]; simpl in *.
    intros [Hk1 Hk2]. destruct k as [|k]; [lia |]. simpl.
    destruct k as [|k].
    + rewrite take_0. simpl. lia.
    + specialize (IH (S k)). lia.
Qed.

(** What has been pushed for a prefix of the body does not depend on the
    chunks still to come. *)
Lemma limiterRun_online (maxBytes : Z) (chunks more : list string) (seen : Z) :
  ∃ out', (limiterRun maxBytes seen (chunks ++ more)).1
          = (limiterRun maxBytes seen chunks).1 ++ out'.
Proof.
  revert seen. induction chunks as [|c cs IH]; intros seen; simpl.
  - by eexists.
  - destruct (transform_cases maxBytes seen c) as [[Hle ->] | [Hgt ->]]; simpl.
    + destruct (IH (seen + Js.length c)) as [out' Hout].
      destruct (limiterRun maxBytes (seen + Js.length c) (cs ++ more)) as [o1 e1].
      destruct (limiterRun maxBytes (seen + Js.length c) cs) as [o2 e2].
      simpl in *. subst. by exists out'.
    + by exists [].
Qed.

Lemma limiterRun_push (maxBytes seen n : Z) (c c' : string) (cs : list string) :
  transform maxBytes seen c = (n, CbPush c') →
  limiterRun maxBytes seen (c :: cs)
  = (c' :: (limiterRun maxBytes n cs).1, (limiterRun maxBytes n cs).2).
Proof. intros H. simpl. rewrite H. by destruct (limiterRun maxBytes n cs). Qed.

Lemma limiterRun_error (maxBytes seen n : Z) (c : string) (e : Error) (cs : list string) :
  transform maxBytes seen c = (n, CbError e) →
  limiterRun maxBytes seen (c :: cs) = ([], Some e).
Proof. intros H. simpl. by rewrite H. Qed.

End Limiter.

(** ** The listeners of a forwarded request *)

(** The listeners are compositions of record updates: on an exchange given
    by its fields they are evaluated call by value, so that each update is
    reduced before the next applies. *)
Ltac exchange_fields :=
  cbn [cors maxBytes seen limiterDestroyed headersSent resClosed upDestroyed
       upResponded trace] in *.

Ltac open_exchange x := destruct x; exchange_fields; subst.

Ltac unfold_listeners :=
  cbv [step onRequestData onRequestEnd onLimiterError onResClose
       onUpstreamTimeout onUpstreamResponse upstreamReq_destroy onUpstreamError
       upstreamReq_write upstreamReq_end res_destroy res_pipe res_end
       res_writeHead emit setSeen setLimiterDestroyed setHeadersSent
       setResClosed setUpDestroyed setUpResponded
       cors maxBytes seen limiterDestroyed headersSent resClosed upDestroyed
       upResponded trace].

(** Every listener on every combination of the flags. *)
Ltac listener_cases x ev :=
  open_exchange x; destruct ev;
  repeat match goal with b : bool |- _ => destruct b end;
  unfold_listeners;
  repeat match goal with
         | |- context [transform ?m ?s ?c] =>
             destruct (transform m s c) as [? [?|?]]; unfold_listeners
         | |- context [bool_decide ?P] =>
             destruct (bool_decide P); unfold_listeners
         end;
  simpl.

Section Listeners.

(** A destroyed limiter lets nothing through. *)
Lemma run_data_destroyed (x : Exchange) (chunks : list string) :
  limiterDestroyed x = true → run x (RequestData <$> chunks) = x.
Proof.
  intros Hd. induction chunks as [|c cs IH]; simpl; [done |].
  unfold onRequestData. by rewrite Hd.
Qed.

(** The effects of a body streamed into a fresh exchange: the chunks the
    limiter pushes are written upstream one by one; at the overflowing chunk
    the upstream request is destroyed and the client is answered 413. *)
Lemma run_data_trace (x : Exchange) (chunks : list string) :
  limiterDestroyed x = false → upDestroyed x = false →
  headersSent x = false → resClosed x = false →
  trace (run x (RequestData <$> chunks))
  = trace x
    ++ (UpWrite <$> (limiterRun (maxBytes x) (seen x) chunks).1)
    ++ match (limiterRun (maxBytes x) (seen x) chunks).2 with
       | Some e => [UpDestroy (Some e); ResWriteHead 413 textPlain;
                    ResEnd (Some "Request too large")]
       | None => []
       end.
Proof.
  revert x. induction chunks as [|c cs IH]; intros x Hl Hu Hh Hr.
  - simpl. by rewrite app_nil_r.
  - rewrite fmap_cons.
    change (run x (RequestData c :: (RequestData <$> cs)))
      with (run (onRequestData c x) (RequestData <$> cs)).
    destruct (transform_cases (maxBytes x) (seen x) c) as [[Hle Ht] | [Hgt Ht]].
    + rewrite (limiterRun_push _ _ _ _ _ _ Ht).
      unfold onRequestData. rewrite Hl, Ht.
      unfold upstreamReq_write, setSeen; simpl. rewrite Hu.
      rewrite IH by done. simpl. by rewrite <- app_assoc.
    + rewrite (limiterRun_error _ _ _ _ _ _ Ht).
      unfold onRequestData. rewrite Hl, Ht.
      assert (limiterDestroyed
                (onLimiterError bodyTooLarge
                   (setLimiterDestroyed (setSeen (seen x + Js.length c) x))) = true)
        as Hdead.
      { clear IH. open_exchange x. by unfold_listeners. }
      rewrite (run_data_destroyed _ _ Hdead).
      clear IH Hdead. open_exchange x. unfold_listeners.
      rewrite code_bodyTooLarge. simpl. by rewrite <- !app_assoc.
Qed.

(** Every listener only adds to the effects. *)
Lemma step_extends (x : Exchange) (ev : Event) :
  ∃ new, trace (step x ev) = trace x ++ new.
Proof.
  listener_cases x ev; rewrite <- ?app_assoc; eauto using app_nil_r.
Qed.

Lemma run_extends (x : Exchange) (evs : list Event) :
  ∃ new, trace (run x evs) = trace x ++ new.
Proof.
  revert x. induction evs as [|ev evs IH]; intros x; simpl.
  - exists []. by rewrite app_nil_r.
  - destruct (IH (step x ev)) as [n2 ->]. destruct (step_extends x ev) as [n1 ->].
    exists (n1 ++ n2). by rewrite app_assoc.
Qed.

Lemma nosniff_relayHeaders (cors : option Headers) (upHeaders : Headers) :
  relayHeaders cors upHeaders !! "X-Content-Type-Options" = Some "nosniff".
Proof. unfold relayHeaders. apply lookup_insert_eq. Qed.

(** Every [writeHead] of a listener carries the nosniff header. *)
Lemma step_nosniff (x : Exchange) (ev : Event) :
  Forall nosniff (trace x) → Forall nosniff (trace (step x ev)).
Proof.
  intros Hx. pose proof nosniff_relayHeaders as Hrelay.
  listener_cases x ev; rewrite ?Forall_app; repeat split; try done;
    repeat (constructor; simpl); done.
Qed.

Lemma run_nosniff (x : Exchange) (evs : list Event) :
  Forall nosniff (trace x) → Forall nosniff (trace (run x evs)).
Proof.
  revert x. induction evs as [|ev evs IH]; intros x Hx; simpl; [done |].
  by apply IH, step_nosniff.
Qed.


(** A forwarded request is answered with at most one status: no listener
    writes a second head. *)
Lemma step_consistent (x : Exchange) (ev : Event) :
  consistent x → consistent (step x ev).
Proof.
  unfold consistent, statuses. intros (Hflag & Hnone & Hone).
  listener_cases x ev; rewrite ?omap_app, ?length_app, ?app_nil_r; simpl;
    (split_and!; [try (intros _; by auto); try done
                 | try (intros; by auto); try done
                 | try (rewrite Hnone by done; simpl; lia); try lia]).
  all: destruct (Hflag eq_refl); congruence.
Qed.

Lemma run_consistent (x : Exchange) (evs : list Event) :
  consistent x → consistent (run x evs).
Proof.
  revert x. induction evs as [|ev evs IH]; intros x Hx; simpl; [done |].
  by apply IH, step_consistent.
Qed.

Lemma dispatch_single_status (config : Config) (c : option Headers)
    (o : RequestOptions) (evs : list Event) :
  (length (statuses (trace (run (dispatch config c o) evs))) ≤ 1)%nat.
Proof.
  destruct (run_consistent (dispatch config c o) evs) as (_ & _ & Hone); [| done].
  unfold consistent, dispatch, statuses. simpl. split_and!; [done | done | lia].
Qed.

(** Once the client is gone and the upstream request destroyed, no listener
    has any effect. *)
Lemma step_quiet (x : Exchange) (ev : Event) :
  resClosed x = true → upDestroyed x = true →
  trace (step x ev) = trace x
  ∧ resClosed (step x ev) = true ∧ upDestroyed (step x ev) = true.
Proof.
  intros Hr Hu. by listener_cases x ev.
Qed.

Lemma run_quiet (x : Exchange) (evs : list Event) :
  resClosed x = true → upDestroyed x = true → trace (run x evs) = trace x.
Proof.
  revert x. induction evs as [|ev evs IH]; intros x Hr Hu; simpl; [done |].
  destruct (step_quiet x ev Hr Hu) as (Ht & Hr' & Hu').
  by rewrite IH, Ht.
Qed.

(** A listener leaves the limiter's bound as it is, and only a body chunk
    moves the count or writes upstream. *)
Lemma step_frame (x : Exchange) (ev : Event) :
  maxBytes (step x ev) = maxBytes x
  ∧ ((∀ c, ev ≠ RequestData c) →
     seen (step x ev) = seen x ∧ written (trace (step x ev)) = written (trace x))
  ∧ (closedForData x →
     closedForData (step x ev) ∧ written (trace (step x ev)) = written (trace x))
  ∧ opened (trace (step x ev)) = opened (trace x).
Proof.
  unfold closedForData, written, opened.
  listener_cases x ev; rewrite ?omap_app, ?app_nil_r; simpl; rewrite ?app_nil_r;
    split_and!; try done; try (intros [? | ?]; done); try (intros; by auto);
    intros Hne; by destruct (Hne _ eq_refl).
Qed.

(** A body chunk is either written upstream as it is, within the bound, or
    not at all, and then no later chunk can be. *)
Lemma step_data (x : Exchange) (c : string) :
  (written (trace (step x (RequestData c))) = written (trace x) ++ [c]
   ∧ seen (step x (RequestData c)) = seen x + Js.length c
   ∧ seen x + Js.length c ≤ maxBytes x)
  ∨ (written (trace (step x (RequestData c))) = written (trace x)
     ∧ seen x ≤ seen (step x (RequestData c))
     ∧ closedForData (step x (RequestData c))).
Proof.
  assert (0 ≤ Js.length c) as Hlen by (unfold Js.length; lia).
  unfold closedForData, written.
  destruct (transform_cases (maxBytes x) (seen x) c) as [[Hle Ht] | [Hgt Ht]];
    unfold step, onRequestData; rewrite Ht; clear Ht;
    open_exchange x;
    repeat match goal with b : bool |- _ => destruct b end;
    unfold_listeners; rewrite ?code_bodyTooLarge; simpl;
    rewrite ?omap_app, ?app_nil_r; simpl; rewrite ?app_nil_r;
    first [ left; split_and!; (done || lia)
          | right; split_and!; first [done | lia | by left | by right] ].
Qed.

Lemma run_closed (x : Exchange) (evs : list Event) :
  closedForData x → written (trace (run x evs)) = written (trace x).
Proof.
  revert x. induction evs as [|ev evs IH]; intros x Hx; [done |]. simpl.
  destruct (step_frame x ev) as (_ & _ & Hclosed & _).
  destruct (Hclosed Hx) as [Hx' Hw]. by rewrite IH.
Qed.

(** Once closed for data, an exchange stays so. *)
Lemma run_closed_stays (x : Exchange) (evs : list Event) :
  closedForData x → closedForData (run x evs).
Proof.
  revert x. induction evs as [|ev evs IH]; intros x Hx; [done |]. simpl.
  apply IH. by destruct (step_frame x ev) as (_ & _ & Hclosed & _), (Hclosed Hx).
Qed.

(** While the limiter and the upstream request are live, the client's
    connection stays open, and the headers are sent exactly when the
    upstream response has come. *)
Lemma step_live (x : Exchange) (ev : Event) :
  ¬ closedForData (step x ev) →
  (resClosed x = false → resClosed (step x ev) = false)
  ∧ (headersSent x = upResponded x →
     headersSent (step x ev) = upResponded (step x ev)
     ∧ headersSent (step x ev) = headersSent x || isResponse ev).
Proof.
  unfold closedForData.
  listener_cases x ev; intros Hlive; split; try done;
    try (by destruct Hlive; auto).
Qed.

(** The exchange just before a chunk, its limiter and its upstream request
    live: every chunk so far has been counted and written. *)
Lemma run_live (x : Exchange) (evs : list Event) :
  ¬ closedForData (run x evs) →
  resClosed x = false →
  headersSent x = upResponded x →
  written (trace (run x evs)) = written (trace x) ++ dataOf evs
  ∧ seen (run x evs) = seen x + totalBytes (dataOf evs)
  ∧ maxBytes (run x evs) = maxBytes x
  ∧ resClosed (run x evs) = false
  ∧ headersSent (run x evs) = headersSent x || existsb isResponse evs.
Proof.
  revert x. induction evs as [|ev evs IH]; intros x Hlive Hres Hsent.
  - simpl. rewrite app_nil_r, orb_false_r. split_and!; try done. lia.
  - change (run x (ev :: evs)) with (run (step x ev) evs) in *.
    assert (¬ closedForData (step x ev)) as Hstep
      by (intros Hc; apply Hlive; by apply run_closed_stays).
    destruct (step_live x ev Hstep) as [Hres' Hsent'].
    destruct (Hsent' Hsent) as [Hinv Hnow].
    destruct (IH _ Hlive (Hres' Hres) Hinv) as (Hw & Hs & Hm & Hr & Hh).
    destruct (step_frame x ev) as (Hbound & Hother & _ & _).
    rewrite Hw, Hs, Hm, Hbound, Hh, Hnow. simpl existsb. rewrite orb_assoc.
    split_and!; [| | done | done | done];
      (destruct ev as [c | | | | |];
       [ destruct (step_data x c) as [(Hw' & Hs' & _) | (_ & _ & Hdead)]; [| done];
         rewrite ?Hw', ?Hs'; simpl; rewrite <- ?app_assoc; (done || lia)
       | destruct (Hother ltac:(done)) as [Hs' Hw']; rewrite ?Hw', ?Hs'; done .. ]).
Qed.

(** A chunk that takes the count above the bound, the limiter and the
    upstream request live and the client connected: the upstream request is
    destroyed with the limiter's error, and the error listener answers. *)
Lemma step_overflow (x : Exchange) (chunk : string) :
  resClosed x = false → upDestroyed x = false → limiterDestroyed x = false →
  maxBytes x < seen x + Js.length chunk →
  trace (step x (RequestData chunk))
  = trace x ++ UpDestroy (Some bodyTooLarge)
      :: (if headersSent x then [ResDestroy bodyTooLarge]
          else [ResWriteHead 413 textPlain; ResEnd (Some "Request too large")]).
Proof.
  intros Hc Hu Hl Hgt.
  destruct (transform_cases (maxBytes x) (seen x) chunk) as [[Hle _] | [_ Ht]]; [lia |].
  unfold step, onRequestData. rewrite Hl, Ht.
  open_exchange x. unfold_listeners. rewrite code_bodyTooLarge.
  destruct headersSent0; simpl; by rewrite <- ?app_assoc.
Qed.

End Listeners.

(** ** Header sanitising *)

Section Sanitizer.

Lemma truthy_spec (s : string) : Js.truthy s = true ↔ s ≠ EmptyString.
Proof. destruct s; simpl; split; intros; congruence. Qed.

Lemma truthy_false (s : string) : Js.truthy s = false ↔ s = EmptyString.
Proof. destruct s; simpl; split; intros; congruence. Qed.

Lemma lower_ascii_idemp (c : ascii) : Js.lower_ascii (Js.lower_ascii c) = Js.lower_ascii c.
Proof. by destruct c as [[] [] [] [] [] [] [] []]. Qed.

Lemma toLowerCase_idemp (s : string) :
  Js.toLowerCase (Js.toLowerCase s) = Js.toLowerCase s.
Proof. induction s as [|c s IH]; simpl; [done |]. by rewrite lower_ascii_idemp, IH. Qed.

(** [isHopByHopHeader] is membership of the lower-cased name in the list. *)
Lemma isHopByHopHeader_spec (name : string) :
  isHopByHopHeader name = true ↔ Js.toLowerCase name ∈ hopByHop.
Proof.
  unfold isHopByHopHeader, hopByHop.
  rewrite !orb_true_iff, !bool_decide_eq_true, !elem_of_cons, elem_of_nil. tauto.
Qed.

Lemma requestHeaderKept_spec (key : string) :
  requestHeaderKept key = true
  ↔ key ≠ EmptyString ∧ Js.toLowerCase key ∉ "host" :: hopByHop.
Proof.
  unfold requestHeaderKept. rewrite not_elem_of_cons, <- truthy_spec.
  destruct (Js.truthy key); simpl; [| naive_solver].
  destruct (bool_decide_reflect (Js.toLowerCase key = "host")) as [Hhost | Hhost];
    [naive_solver |].
  destruct (isHopByHopHeader (Js.toLowerCase key)) eqn:Hhop.
  - apply isHopByHopHeader_spec in Hhop. rewrite toLowerCase_idemp in Hhop. naive_solver.
  - split; [|done]. intros _. repeat split; [done.. |].
    intros Hin. rewrite <- (toLowerCase_idemp key) in Hin.
    apply isHopByHopHeader_spec in Hin. congruence.
Qed.

Lemma responseHeaderKept_spec (k : string) :
  responseHeaderKept k = true ↔ k ≠ EmptyString ∧ Js.toLowerCase k ∉ hopByHop.
Proof.
  unfold responseHeaderKept. rewrite <- truthy_spec.
  destruct (Js.truthy k); simpl; [| naive_solver].
  destruct (isHopByHopHeader k) eqn:Hhop.
  - apply isHopByHopHeader_spec in Hhop. naive_solver.
  - split; [|done]. intros _. split; [done |].
    intros Hin. apply isHopByHopHeader_spec in Hin. congruence.
Qed.

Lemma sanitizeRequestHeaders_lookup (inHeaders : Headers) (k : string) :
  sanitizeRequestHeaders inHeaders !! k
  = if requestHeaderKept k then inHeaders !! k else None.
Proof.
  unfold sanitizeRequestHeaders. apply option_eq. intros v.
  rewrite map_lookup_filter_Some. simpl.
  destruct (requestHeaderKept k); naive_solver.
Qed.

Lemma sanitizeResponseHeaders_lookup (upHeaders : Headers) (k : string) :
  sanitizeResponseHeaders upHeaders !! k
  = if responseHeaderKept k then upHeaders !! k else None.
Proof.
  unfold sanitizeResponseHeaders. apply option_eq. intros v.
  rewrite map_lookup_filter_Some. simpl.
  destruct (responseHeaderKept k); naive_solver.
Qed.

(** None of the three forwarding headers is a dropped name. *)
Lemma forwarded_lower :
  Forall (λ k, Js.toLowerCase k ∉ "host" :: hopByHop) forwarded.
Proof. compute_done. Qed.

Lemma forwarded_not_dropped (k : string) :
  Js.toLowerCase k ∈ "host" :: hopByHop → k ∉ forwarded.
Proof.
  intros Hin Hf. pose proof forwarded_lower as Hall.
  rewrite Forall_forall in Hall. by apply (Hall k).
Qed.

Lemma outboundHeaders_lookup (req : Request) (url : URL) (k : string) :
  k ∉ forwarded →
  outboundHeaders req url !! k = sanitizeRequestHeaders (req_headers req) !! k.
Proof.
  unfold forwarded, outboundHeaders. rewrite !not_elem_of_cons. intros (? & ? & ? & _).
  by rewrite !lookup_insert_ne.
Qed.

End Sanitizer.

(** ** The handler, branch by branch *)

Section HandlerBranches.

Variable corsHeadersForOrigin : string → gset string → option Headers.
Variable newURL : string → string → option URL.
Variable Number : string → JsNumber.

Local Abbreviation handler := (createProxyHandler corsHeadersForOrigin newURL Number).
Local Abbreviation parsed := (Route.parsed newURL).
Local Abbreviation proxyable := (Route.proxyable newURL).
Local Abbreviation corsOf := (Route.corsOf corsHeadersForOrigin).
Local Abbreviation originDenied := (Route.originDenied corsHeadersForOrigin).
Local Abbreviation declaredTooLarge := (Route.declaredTooLarge Number).
Local Abbreviation isHealthCheck := Route.isHealthCheck.
Local Abbreviation isPreflight := Route.isPreflight.
Local Abbreviation methodOf := Route.methodOf.
Local Abbreviation pathOf := Route.pathOf.
Local Abbreviation originOf := Route.originOf.
Local Abbreviation authorizationOf := Route.authorizationOf.

Lemma andb_decide_false (P Q : Prop) `{!Decision P, !Decision Q} :
  ¬ (P ∧ Q) → bool_decide P && bool_decide Q = false.
Proof. intros H. repeat case_bool_decide; simpl; tauto. Qed.

Lemma options_not_mcp_method : "OPTIONS" ∉ MCP_METHODS.
Proof. unfold MCP_METHODS. rewrite !elem_of_cons, elem_of_nil. naive_solver. Qed.

Lemma handler_bad_request (config : Config) (req : Request) :
  Js.truthy_opt (req_url req) = false ∨ Js.truthy_opt (req_method req) = false →
  handler config req = respond 400 textPlain (Some "Bad request").
Proof. unfold createProxyHandler. intros [-> | ->]; simpl; by rewrite ?orb_true_r. Qed.

Lemma handler_health (config : Config) (req : Request) (url : URL) :
  parsed req url → isHealthCheck req url →
  handler config req = respond 200 applicationJson (Some healthBody).
Proof.
  intros (Hu & Hm & Hp) [Hget Hpath]. unfold createProxyHandler, Route.methodOf, Route.pathOf in *.
  rewrite Hu, Hm, Hp; simpl. by rewrite Hget, Hpath.
Qed.

Lemma handler_preflight (config : Config) (req : Request) (url : URL) :
  parsed req url → ¬ isHealthCheck req url → isPreflight config req url →
  handler config req
  = match corsOf config req with
    | None => respond 403 textPlain (Some "Origin not allowed")
    | Some c => respond 204 (<["X-Content-Type-Options" := "nosniff"]> c) None
    end.
Proof.
  intros (Hu & Hm & Hp) Hh [Hopt Hpath].
  unfold createProxyHandler, Route.isHealthCheck, Route.methodOf, Route.pathOf,
    Route.corsOf, Route.originOf in *.
  rewrite Hu, Hm, Hp; simpl. rewrite Hopt, Hpath in *; simpl.
  by rewrite bool_decide_true.
Qed.

Lemma handler_not_found (config : Config) (req : Request) (url : URL) :
  parsed req url → ¬ isHealthCheck req url → ¬ isPreflight config req url →
  pathOf url ≠ mcpPath config ∨ methodOf req ∉ MCP_METHODS →
  handler config req = respond 404 textPlain (Some "Not found").
Proof.
  intros (Hu & Hm & Hp) Hh Hpre Hnf.
  unfold createProxyHandler, Route.isHealthCheck, Route.isPreflight, Route.methodOf,
    Route.pathOf in *.
  rewrite Hu, Hm, Hp; simpl.
  rewrite (andb_decide_false _ _ Hh), (andb_decide_false _ _ Hpre).
  destruct Hnf as [Hnf | Hnf].
  - by rewrite (bool_decide_true _ Hnf).
  - by rewrite (bool_decide_false _ Hnf), orb_true_r.
Qed.

(** A proxyable request reaches the three checks before the forwarder. *)
Lemma handler_proxyable (config : Config) (req : Request) (url : URL) :
  proxyable config req url →
  handler config req
  = if Js.truthy (originOf req) && negb (bool_decide (is_Some (corsOf config req))) then
      respond 403 textPlain (Some "Origin not allowed")
    else if Js.truthy_opt (authBearerToken config)
            && negb (bool_decide
                 (authorizationOf req
                  = "Bearer " +:+ default EmptyString (authBearerToken config))) then
      respond 401 textPlain (Some "Unauthorized")
    else if declaredTooLarge config req then
      respond 413 textPlain (Some "Request too large")
    else
      Forwarding (dispatch config (corsOf config req) (requestOptions config req url)).
Proof.
  intros ((Hu & Hm & Hp) & Hh & Hpath & Hmeth).
  unfold createProxyHandler, Route.isHealthCheck, Route.methodOf, Route.pathOf,
    Route.corsOf, Route.originOf, Route.authorizationOf, Route.declaredTooLarge in *.
  rewrite Hu, Hm, Hp; simpl.
  rewrite (andb_decide_false _ _ Hh).
  assert (default EmptyString (req_method req) ≠ "OPTIONS") as Hno.
  { intros Heq. rewrite Heq in Hmeth. by apply options_not_mcp_method. }
  rewrite (bool_decide_false _ Hno); simpl.
  rewrite (bool_decide_false (_ ≠ _)) by (intros Hne; by apply Hne).
  rewrite (bool_decide_true _ Hmeth); simpl.
  repeat case_match; done.
Qed.

(** An answer of the handler itself is one [writeHead] and one [end]. *)
Lemma handler_responded (config : Config) (req : Request) (tr : list Effect) :
  handler config req = Responded tr →
  ∃ status h body, tr = [ResWriteHead status h; ResEnd body].
Proof.
  unfold createProxyHandler, respond. intros Hr.
  repeat case_match; simplify_eq; eauto.
Qed.

(** Conversely, only such a request is forwarded. *)
Lemma handler_forwarding (config : Config) (req : Request) (x : Exchange) :
  handler config req = Forwarding x →
  ∃ url, proxyable config req url
    ∧ Js.truthy (originOf req) && negb (bool_decide (is_Some (corsOf config req))) = false
    ∧ Js.truthy_opt (authBearerToken config)
      && negb (bool_decide
           (authorizationOf req
            = "Bearer " +:+ default EmptyString (authBearerToken config))) = false
    ∧ declaredTooLarge config req = false
    ∧ x = dispatch config (corsOf config req) (requestOptions config req url).
Proof.
  unfold createProxyHandler, respond.
  destruct (negb (Js.truthy_opt (req_url req)) || negb (Js.truthy_opt (req_method req)))
    eqn:Hbad; [done |].
  apply orb_false_elim in Hbad as [Hu%negb_false_iff Hm%negb_false_iff].
  destruct (newURL _ _) as [url|] eqn:Hp; [|done].
  destruct (bool_decide (_ = "GET") && _) eqn:Hh; [done |].
  destruct (bool_decide (_ = "OPTIONS") && _) eqn:Hpre; [by case_match |].
  destruct (bool_decide (_ ≠ _) || _) eqn:Hnf; [done |].
  apply orb_false_elim in Hnf as [Hpath%bool_decide_eq_false Hmeth%negb_false_iff].
  apply bool_decide_eq_true in Hmeth. apply dec_stable in Hpath.
  destruct (Js.truthy _ && _) eqn:Ho; [done |].
  destruct (Js.truthy_opt _ && _) eqn:Ha; [done |].
  destruct (finiteAndGreater _ _) eqn:Hl; [done |].
  intros [= <-]. exists url. repeat split; try done.
  unfold Route.isHealthCheck, Route.methodOf, Route.pathOf. intros [H1 H2].
  by rewrite H1, H2 in Hh.
Qed.

Lemma origin_check_spec (config : Config) (req : Request) :
  Js.truthy (originOf req) && negb (bool_decide (is_Some (corsOf config req))) = true
  ↔ originDenied config req.
Proof.
  unfold Route.originDenied.
  rewrite andb_true_iff, negb_true_iff, bool_decide_eq_false, truthy_spec.
  by rewrite <- eq_None_not_Some.
Qed.

Lemma auth_gate_spec (config : Config) (req : Request) :
  Js.truthy_opt (authBearerToken config)
  && negb (bool_decide
       (authorizationOf req
        = "Bearer " +:+ default EmptyString (authBearerToken config))) = true
  ↔ Route.unauthorized config req.
Proof.
  unfold Route.unauthorized.
  rewrite andb_true_iff, negb_true_iff, bool_decide_eq_false.
  destruct (authBearerToken config) as [secret|]; simpl.
  - rewrite truthy_spec. split.
    + intros [Hne Hauth]. by exists secret.
    + by intros (? & [= <-] & Hne & Hauth).
  - split; [by intros [? _] | by intros (? & ? & _)].
Qed.

(** The four outcomes of a proxyable request. *)
Lemma proxyable_outcome (config : Config) (req : Request) (url : URL) :
  proxyable config req url →
  (originDenied config req →
   handler config req = respond 403 textPlain (Some "Origin not allowed"))
  ∧ (¬ originDenied config req → Route.unauthorized config req →
     handler config req = respond 401 textPlain (Some "Unauthorized"))
  ∧ (¬ originDenied config req → ¬ Route.unauthorized config req →
     declaredTooLarge config req = true →
     handler config req = respond 413 textPlain (Some "Request too large"))
  ∧ (¬ originDenied config req → ¬ Route.unauthorized config req →
     declaredTooLarge config req = false →
     handler config req
     = Forwarding (dispatch config (corsOf config req) (requestOptions config req url))).
Proof.
  intros Hp. rewrite (handler_proxyable _ _ _ Hp).
  rewrite <- origin_check_spec, <- auth_gate_spec.
  repeat split; intros; repeat case_match; congruence.
Qed.

End HandlerBranches.

(** ** The claims *)

Section Claims.

Variable corsHeadersForOrigin : string → gset string → option Headers.
Variable newURL : string → string → option URL.
Variable Number : string → JsNumber.

Local Abbreviation handler := (createProxyHandler corsHeadersForOrigin newURL Number).
Local Abbreviation serve := (Proxy.serve corsHeadersForOrigin newURL Number).
Local Abbreviation parsed := (Route.parsed newURL).
Local Abbreviation proxyable := (Route.proxyable newURL).
Local Abbreviation corsOf := (Route.corsOf corsHeadersForOrigin).
Local Abbreviation originDenied := (Route.originDenied corsHeadersForOrigin).
Local Abbreviation declaredTooLarge := (Route.declaredTooLarge Number).
Local Abbreviation isHealthCheck := Route.isHealthCheck.
Local Abbreviation isPreflight := Route.isPreflight.
Local Abbreviation methodOf := Route.methodOf.
Local Abbreviation pathOf := Route.pathOf.
Local Abbreviation originOf := Route.originOf.
Local Abbreviation authorizationOf := Route.authorizationOf.

(** C3.  For every maximum and every sequence of body chunks, the limiter
    pushes a prefix of the chunks unchanged; each pushed chunk left the
    cumulative byte count at or below the maximum; when the stream ends with
    an error, the error has code BODY_TOO_LARGE and is raised at the first
    chunk that takes the count above the maximum, which is not pushed; what
    is pushed for a prefix of the body never depends on later chunks (the
    only state is the running count); and in every forwarded request,
    whatever its headers declare, exactly the pushed chunks are written
    upstream, followed at an overflow by the teardown of the upstream request
    and a 413 answer. *)
Theorem size_guard_streaming (maxBytes : Z) (chunks : list string) :
  let r := createSizeLimitStream maxBytes chunks in
  (∃ rest, chunks = r.1 ++ rest)
  ∧ (∀ k, (0 < k ≤ length r.1)%nat → totalBytes (take k chunks) ≤ maxBytes)
  ∧ match r.2 with
    | None => r.1 = chunks
    | Some e =>
        code e = Some "BODY_TOO_LARGE"
        ∧ ∃ c rest, chunks = r.1 ++ c :: rest ∧ maxBytes < totalBytes (r.1 ++ [c])
    end
  ∧ (∀ more, ∃ out', (createSizeLimitStream maxBytes (chunks ++ more)).1 = r.1 ++ out')
  ∧ (∀ config req x,
       maxBodyBytes config = maxBytes →
       handler config req = Forwarding x →
       ∃ o, trace (run x (RequestData <$> chunks))
            = UpRequest o :: (UpWrite <$> r.1)
              ++ match r.2 with
                 | Some e => [UpDestroy (Some e); ResWriteHead 413 textPlain;
                              ResEnd (Some "Request too large")]
                 | None => []
                 end).
Proof.
  unfold createSizeLimitStream. simpl.
  destruct (limiterRun_prefix maxBytes chunks 0) as (rest & Heq & Herr).
  repeat split.
  - by exists rest.
  - intros k Hk. pose proof (limiterRun_within maxBytes chunks 0 k Hk). lia.
  - destruct (limiterRun maxBytes 0 chunks).2 as [e|].
    + destruct Herr as (-> & c & rest' & -> & Hlt). split; [done |].
      exists c, rest'. split; [done | lia].
    + subst rest. by rewrite app_nil_r in Heq.
  - intros more. apply limiterRun_online.
  - intros config req x Hmax Hf.
    apply handler_forwarding in Hf as (url & _ & _ & _ & _ & ->).
    eexists. rewrite run_data_trace by done. simpl. by rewrite Hmax.
Qed.

(** C2, as amended.  Every rejection decided by the handler itself: a denied
    origin (at the preflight or on a proxyable request), a failed auth gate,
    an unknown route and a declared content length above the maximum, is
    answered by one [writeHead] and one [end] with no effect on the upstream,
    whatever happens afterwards.  A request that is forwarded has opened the
    upstream request before anything else: every later answer to it comes
    after that.  So a streaming overflow is detected with the upstream
    request open: when a chunk takes the byte count above the maximum while
    the limiter and the upstream request are both live, every earlier chunk
    has been written to the upstream request; that request is then destroyed
    with the too-large error, and the client is answered 413 if the upstream
    has not responded yet, and has its connection destroyed, with no 413,
    if it has. *)
Theorem rejections_before_upstream (config : Config) (req : Request) :
  (∀ url, parsed req url → ¬ isHealthCheck req url →
     (isPreflight config req url → corsOf config req = None →
      handler config req = respond 403 textPlain (Some "Origin not allowed"))
     ∧ (¬ isPreflight config req url →
        pathOf url ≠ mcpPath config ∨ methodOf req ∉ MCP_METHODS →
        handler config req = respond 404 textPlain (Some "Not found"))
     ∧ (proxyable config req url → originDenied config req →
        handler config req = respond 403 textPlain (Some "Origin not allowed"))
     ∧ (proxyable config req url → ¬ originDenied config req →
        Route.unauthorized config req →
        handler config req = respond 401 textPlain (Some "Unauthorized"))
     ∧ (proxyable config req url → ¬ originDenied config req →
        ¬ Route.unauthorized config req → declaredTooLarge config req = true →
        handler config req = respond 413 textPlain (Some "Request too large")))
  ∧ (∀ tr, handler config req = Responded tr →
     toUpstream tr = [] ∧ ∀ evs, serve config req evs = Some tr)
  ∧ (∀ x, handler config req = Forwarding x →
     ∀ evs, ∃ o rest, serve config req evs = Some (UpRequest o :: rest))
  ∧ (∀ x, handler config req = Forwarding x →
     ∀ evs chunk,
       ¬ closedForData (run x evs) →
       maxBodyBytes config < totalBytes (dataOf evs) + Js.length chunk →
       (∃ o rest, trace (run x evs) = UpRequest o :: rest)
       ∧ written (trace (run x evs)) = dataOf evs
       ∧ (headersSent (run x evs) = true ↔ ∃ sc up, UpstreamResponse sc up ∈ evs)
       ∧ serve config req (evs ++ [RequestData chunk])
         = Some (trace (run x evs) ++ UpDestroy (Some bodyTooLarge)
                   :: (if headersSent (run x evs) then [ResDestroy bodyTooLarge]
                       else [ResWriteHead 413 textPlain;
                             ResEnd (Some "Request too large")]))).
Proof.
  split; [| split; [| split]].
  - intros url Hp Hh. repeat split.
    + intros Hpre Hc. rewrite (handler_preflight corsHeadersForOrigin newURL Number _ _ _ Hp Hh Hpre). by rewrite Hc.
    + intros Hpre Hnf. by apply (handler_not_found corsHeadersForOrigin newURL Number _ _ url).
    + intros Hpx. by apply (proxyable_outcome corsHeadersForOrigin newURL Number _ _ _ Hpx).
    + intros Hpx. by apply (proxyable_outcome corsHeadersForOrigin newURL Number _ _ _ Hpx).
    + intros Hpx. by apply (proxyable_outcome corsHeadersForOrigin newURL Number _ _ _ Hpx).
  - intros tr Hr. split.
    + apply handler_responded in Hr as (status & h & body & ->). done.
    + intros evs. unfold Proxy.serve. by rewrite Hr.
  - intros x Hf evs. unfold Proxy.serve. rewrite Hf.
    apply handler_forwarding in Hf as (url & _ & _ & _ & _ & ->).
    destruct (run_extends (dispatch config (corsOf config req)
                (requestOptions config req url)) evs) as [new ->].
    simpl. eauto.
  - intros x Hf evs chunk Hlive Hover. unfold Proxy.serve. rewrite Hf.
    apply handler_forwarding in Hf as (url & _ & _ & _ & _ & ->).
    destruct (run_live _ evs Hlive eq_refl eq_refl) as (Hw & Hs & Hm & Hr & Hh).
    split_and!.
    + destruct (run_extends (dispatch config (corsOf config req)
                  (requestOptions config req url)) evs) as [new ->].
      simpl. eauto.
    + by rewrite Hw.
    + rewrite Hh. simpl. rewrite existsb_exists. split.
      * intros ([] & Hin & Hev); try done. apply list_elem_of_In in Hin. eauto.
      * intros (sc & up & Hin). eexists. split; [by apply list_elem_of_In |]. done.
    + unfold run. rewrite foldl_app. simpl. f_equal.
      apply step_overflow; [done | | | ].
      * destruct (upDestroyed (foldl step _ evs)) eqn:Hu; [| done].
        destruct Hlive. by right.
      * destruct (limiterDestroyed (foldl step _ evs)) eqn:Hl; [| done].
        destruct Hlive. by left.
      * unfold run in Hs, Hm. rewrite Hs, Hm. simpl. lia.
Qed.

(** C4, as amended.  For a proxyable request that the origin policy does not
    deny: with a secret configured, the answer is 401 Unauthorized, with no
    effect on the upstream, exactly when the Authorization header is not
    [Bearer] followed by the secret; with no secret configured the gate
    decides nothing and the request goes on to the size guard and the
    forwarder. *)
Theorem auth_gate_exact_match (config : Config) (req : Request) (url : URL) :
  proxyable config req url →
  ¬ originDenied config req →
  (∀ secret, authBearerToken config = Some secret → secret ≠ EmptyString →
     (handler config req = respond 401 textPlain (Some "Unauthorized")
      ↔ authorizationOf req ≠ "Bearer " +:+ secret)
     ∧ (authorizationOf req ≠ "Bearer " +:+ secret →
        ∀ evs, serve config req evs
               = Some [ResWriteHead 401 textPlain; ResEnd (Some "Unauthorized")]))
  ∧ (Js.truthy_opt (authBearerToken config) = false →
     handler config req
     = if declaredTooLarge config req
       then respond 413 textPlain (Some "Request too large")
       else Forwarding (dispatch config (corsOf config req)
                          (requestOptions config req url))).
Proof.
  intros Hp Ho.
  destruct (proxyable_outcome corsHeadersForOrigin newURL Number config req url Hp) as (_ & H401 & H413 & Hfwd).
  split.
  - intros secret Hs Hne.
    assert (authorizationOf req ≠ "Bearer " +:+ secret
            → handler config req = respond 401 textPlain (Some "Unauthorized")) as Hgate.
    { intros Hauth. apply H401; [done |]. by exists secret. }
    split; [split |].
    + intros Hr Heq.
      assert (¬ Route.unauthorized config req) as Hok.
      { intros (s & Hs' & _ & Hauth). congruence. }
      destruct (declaredTooLarge config req) eqn:Hl.
      * rewrite (H413 Ho Hok eq_refl) in Hr. discriminate.
      * rewrite (Hfwd Ho Hok eq_refl) in Hr. discriminate.
    + done.
    + intros Hauth evs. unfold Proxy.serve. by rewrite (Hgate Hauth).
  - intros Hnone.
    assert (¬ Route.unauthorized config req) as Hok.
    { intros (s & Hs' & Hne & _). rewrite Hs' in Hnone. simpl in Hnone.
      by apply truthy_false in Hnone. }
    destruct (declaredTooLarge config req) eqn:Hl; auto.
Qed.

(** C7, as amended.  A proxyable request with no Origin header (or an empty
    one) is not denied by the origin policy: it is answered 401 when the auth
    gate fails, 413 when the gate passes and the declared content length
    exceeds the maximum, and is forwarded upstream otherwise.  On a proxyable
    request the handler answers 403 exactly when an Origin header is present
    and denied. *)
Theorem missing_origin_not_denied (config : Config) (req : Request) (url : URL) :
  proxyable config req url →
  (originOf req = EmptyString →
     ¬ originDenied config req
     ∧ (Route.unauthorized config req →
        handler config req = respond 401 textPlain (Some "Unauthorized"))
     ∧ (¬ Route.unauthorized config req → declaredTooLarge config req = true →
        handler config req = respond 413 textPlain (Some "Request too large"))
     ∧ (¬ Route.unauthorized config req → declaredTooLarge config req = false →
        handler config req
        = Forwarding (dispatch config (corsOf config req)
                        (requestOptions config req url))))
  ∧ (∀ h body, handler config req = respond 403 h body → originDenied config req)
  ∧ (originDenied config req →
     handler config req = respond 403 textPlain (Some "Origin not allowed")).
Proof.
  intros Hp.
  destruct (proxyable_outcome corsHeadersForOrigin newURL Number config req url Hp) as (H403 & H401 & H413 & Hfwd).
  split; [| split].
  - intros Hempty.
    assert (¬ originDenied config req) as Ho by (by intros [Hne _]).
    repeat split; auto.
  - intros h body Hr.
    rewrite (handler_proxyable corsHeadersForOrigin newURL Number _ _ _ Hp) in Hr.
    destruct (Js.truthy _ && _) eqn:Hor; [by apply origin_check_spec |].
    repeat case_match; discriminate.
  - done.
Qed.

(** C5, as amended.  Towards the upstream, Host and the eight hop-by-hop
    names are dropped whatever their case, every other header with a
    non-empty name keeps its value unless it is one of the three X-Forwarded
    entries, and these three carry the scheme, the Host value and the client
    address; that header set is the one of the upstream request.  Towards the
    client, the eight hop-by-hop names of the upstream response are dropped
    whatever their case (Host is not among them), and every other header with
    a non-empty name keeps its value unless the CORS decision or the nosniff
    entry has the same name; that header set is the one written to the
    client. *)
Theorem header_sanitizing :
  (∀ req url k,
     (Js.toLowerCase k ∈ "host" :: hopByHop → outboundHeaders req url !! k = None)
     ∧ (k ≠ EmptyString → Js.toLowerCase k ∉ "host" :: hopByHop → k ∉ forwarded →
        outboundHeaders req url !! k = req_headers req !! k)
     ∧ outboundHeaders req url !! "X-Forwarded-Proto"
       = Some (Js.removeFirstColon (url_protocol url))
     ∧ outboundHeaders req url !! "X-Forwarded-Host"
       = Some (getOr (req_headers req) "host" EmptyString)
     ∧ outboundHeaders req url !! "X-Forwarded-For"
       = Some (default EmptyString (req_remoteAddress req)))
  ∧ (∀ config req x, handler config req = Forwarding x →
     ∃ url o, parsed req url ∧ trace x = [UpRequest o]
              ∧ o_headers o = outboundHeaders req url)
  ∧ (∀ cors upHeaders k,
     (Js.toLowerCase k ∈ hopByHop →
      relayHeaders cors upHeaders !! k = relayHeaders cors ∅ !! k)
     ∧ (k ≠ EmptyString → Js.toLowerCase k ∉ hopByHop →
        k ≠ "X-Content-Type-Options" → (∀ c, cors = Some c → c !! k = None) →
        relayHeaders cors upHeaders !! k = upHeaders !! k))
  ∧ (∀ x statusCode upHeaders,
     upDestroyed x = false → upResponded x = false → resClosed x = false →
     trace (step x (UpstreamResponse statusCode upHeaders))
     = trace x ++ [ResWriteHead (default 502 statusCode)
                     (relayHeaders (cors x) upHeaders); ResPipe]).
Proof.
  split; [| split; [| split]].
  - intros req url k. split; [| split; [| unfold outboundHeaders; repeat split]].
    + intros Hin. rewrite outboundHeaders_lookup by by apply forwarded_not_dropped.
      rewrite sanitizeRequestHeaders_lookup.
      destruct (requestHeaderKept k) eqn:Hk; [|done].
      apply requestHeaderKept_spec in Hk. naive_solver.
    + intros Hne Hnin Hf. rewrite outboundHeaders_lookup by done.
      rewrite sanitizeRequestHeaders_lookup.
      by rewrite (proj2 (requestHeaderKept_spec k)).
    + do 2 (rewrite lookup_insert_ne by done). by rewrite lookup_insert_eq.
    + rewrite lookup_insert_ne by done. by rewrite lookup_insert_eq.
    + by rewrite lookup_insert_eq.
  - intros config req x Hf.
    apply handler_forwarding in Hf as (url & (Hp & _) & _ & _ & _ & ->).
    by exists url, (requestOptions config req url).
  - intros cors upHeaders k. split.
    + intros Hin. unfold relayHeaders.
      assert (∀ up, sanitizeResponseHeaders up !! k = None) as Hnone.
      { intros up. rewrite sanitizeResponseHeaders_lookup.
        destruct (responseHeaderKept k) eqn:Hk; [|done].
        apply responseHeaderKept_spec in Hk. naive_solver. }
      destruct (decide ("X-Content-Type-Options" = k)) as [<- | Hne].
      * by rewrite !lookup_insert_eq.
      * rewrite !lookup_insert_ne by done.
        destruct cors as [c|]; [| by rewrite !Hnone].
        by rewrite !lookup_union, !Hnone.
    + intros Hne Hnin Hns Hc. unfold relayHeaders.
      rewrite lookup_insert_ne by done.
      assert (sanitizeResponseHeaders upHeaders !! k = upHeaders !! k) as Hkeep.
      { rewrite sanitizeResponseHeaders_lookup.
        by rewrite (proj2 (responseHeaderKept_spec k)). }
      destruct cors as [c|]; [| done].
      rewrite lookup_union, (Hc c eq_refl), Hkeep. by destruct (upHeaders !! k).
  - intros x statusCode upHeaders Hu Hr Hc. open_exchange x. unfold_listeners.
    simpl. by rewrite <- app_assoc.
Qed.


(** C8.  Every [writeHead] the proxy performs for a request, by the handler
    itself (health, preflight allowed and denied, 400, 401, 403, 404, 413) or
    later by a listener (the relayed upstream response, 502, 413), carries
    X-Content-Type-Options: nosniff. *)
Theorem nosniff_on_every_response (config : Config) (req : Request)
    (evs : list Event) (tr : list Effect) :
  serve config req evs = Some tr →
  ∀ status h, ResWriteHead status h ∈ tr →
    h !! "X-Content-Type-Options" = Some "nosniff".
Proof.
  intros Hs.
  assert (Forall nosniff tr) as Hall.
  { unfold Proxy.serve in Hs.
    destruct (handler config req) as [| tr' | x] eqn:Hh; simplify_eq.
    - unfold createProxyHandler, respond in Hh.
      repeat case_match; simplify_eq; repeat constructor; simpl;
        by (apply lookup_insert_eq || vm_compute).
    - apply handler_forwarding in Hh as (url & _ & _ & _ & _ & ->).
      apply run_nosniff. by repeat constructor. }
  intros status h Hin. rewrite Forall_forall in Hall. by apply (Hall _ Hin).
Qed.

(** C9.  When the client connection closes, the close listener destroys the
    upstream request in the same step (with no effect if it is already
    destroyed) and writes nothing to the client; from then on no event has
    any effect on either connection, so no further response is sent. *)
Theorem client_close_tears_down_upstream (x : Exchange) :
  upDestroyed (step x ResClose) = true
  ∧ (upDestroyed x = false → trace (step x ResClose) = trace x ++ [UpDestroy None])
  ∧ (upDestroyed x = true → trace (step x ResClose) = trace x)
  ∧ toClient (trace (step x ResClose)) = toClient (trace x)
  ∧ ∀ evs, trace (run (step x ResClose) evs) = trace (step x ResClose).
Proof.
  assert (upDestroyed (step x ResClose) = true ∧ resClosed (step x ResClose) = true)
    as [Hu Hr].
  { destruct x. unfold_listeners. by destruct upDestroyed0. }
  assert (upDestroyed x = false → trace (step x ResClose) = trace x ++ [UpDestroy None])
    as Hf.
  { intros Hx. clear Hu Hr. open_exchange x. by unfold_listeners. }
  assert (upDestroyed x = true → trace (step x ResClose) = trace x) as Ht.
  { intros Hx. clear Hu Hr Hf. open_exchange x. by unfold_listeners. }
  repeat split; try done.
  - destruct (upDestroyed x) eqn:H.
    + by rewrite Ht.
    + rewrite Hf by done. unfold toClient. rewrite filter_app. simpl.
      by rewrite app_nil_r.
  - intros evs. by apply run_quiet.
Qed.

End Claims.

(** ** The origin policy and the allow-list *)

Section Origins.

Variables allowMethods allowHeaders : string.

Local Abbreviation corsHeadersForOrigin :=
  (Cors.corsHeadersForOrigin allowMethods allowHeaders).

Lemma cors_allowed (origin : string) (allowedOrigins : gset string) (h : Headers) :
  corsHeadersForOrigin origin allowedOrigins = Some h →
  origin ∈ allowedOrigins ∧ h !! "Access-Control-Allow-Origin" = Some origin.
Proof.
  unfold Cors.corsHeadersForOrigin. case_decide; [| done].
  intros [= <-]. split; [done |]. by vm_compute.
Qed.

(** C1.  The evaluator allows an origin exactly when the origin string is an
    entry of the allow-list, and then the Access-Control-Allow-Origin entry
    is the input origin itself; otherwise it denies.  The entry is therefore
    always an allow-listed origin, and never the wildcard: an allow-list
    holds normalised origins (scheme, host, port) and so has no entry [*].
    At the preflight the handler answers 204 with that entry for an
    allow-listed origin and 403 for any other. *)
Theorem origin_policy_exact_match (origin : string) (allowedOrigins : gset string) :
  let decision := corsHeadersForOrigin origin allowedOrigins in
  (origin ∈ allowedOrigins →
     ∃ h, decision = Some h ∧ h !! "Access-Control-Allow-Origin" = Some origin)
  ∧ (origin ∉ allowedOrigins → decision = None)
  ∧ (∀ h v, decision = Some h → h !! "Access-Control-Allow-Origin" = Some v →
       v = origin ∧ v ∈ allowedOrigins)
  ∧ ("*" ∉ allowedOrigins →
       ∀ h, decision = Some h → h !! "Access-Control-Allow-Origin" ≠ Some "*")
  ∧ (∀ newURL Number config req url,
       Proxy.allowedOrigins config = allowedOrigins → Route.originOf req = origin →
       Route.parsed newURL req url → ¬ Route.isHealthCheck req url →
       Route.isPreflight config req url →
       (origin ∈ allowedOrigins →
          ∃ h, createProxyHandler corsHeadersForOrigin newURL Number config req
               = respond 204 h None
               ∧ h !! "Access-Control-Allow-Origin" = Some origin)
       ∧ (origin ∉ allowedOrigins →
          createProxyHandler corsHeadersForOrigin newURL Number config req
          = respond 403 textPlain (Some "Origin not allowed"))).
Proof.
  simpl.
  assert (origin ∈ allowedOrigins →
          ∃ h, corsHeadersForOrigin origin allowedOrigins = Some h
               ∧ h !! "Access-Control-Allow-Origin" = Some origin) as Hallow.
  { intros Hin. unfold Cors.corsHeadersForOrigin. rewrite decide_True by done.
    eexists. split; [done |]. by vm_compute. }
  assert (origin ∉ allowedOrigins → corsHeadersForOrigin origin allowedOrigins = None)
    as Hdeny.
  { intros Hnin. unfold Cors.corsHeadersForOrigin. by rewrite decide_False. }
  split_and!; [done | done | | |].
  - intros h v Hd Hv. apply cors_allowed in Hd as [Hin Hh]. split; congruence.
  - intros Hstar h Hd Hh. apply cors_allowed in Hd as [Hin Hh']. congruence.
  - intros newURL Number config req url Hlist Horigin Hparsed Hhealth Hpre.
    rewrite (handler_preflight _ _ _ _ _ _ Hparsed Hhealth Hpre).
    unfold Route.corsOf. rewrite Hlist, Horigin. split.
    + intros Hin. destruct (Hallow Hin) as (h & -> & Hh).
      exists (<["X-Content-Type-Options" := "nosniff"]> h).
      split; [done |]. by rewrite lookup_insert_ne.
    + intros Hnin. by rewrite (Hdeny Hnin).
Qed.

End Origins.

Section AllowList.

Variable newURL : string → option URL.
Variable Number : string → JsNumber.

Local Abbreviation normalizeOrigin := (Config.normalizeOrigin newURL).
Local Abbreviation addOrigin := (Config.addOrigin newURL).
Local Abbreviation parseAllowedOrigins := (Config.parseAllowedOrigins newURL).
Local Abbreviation readConfig := (Config.readConfig newURL Number).

Lemma addOrigin_elem (set : gset string) (p o : string) :
  o ∈ addOrigin set p ↔ o ∈ set ∨ (normalizeOrigin p = Some o ∧ o ≠ EmptyString).
Proof.
  unfold Config.addOrigin.
  destruct (normalizeOrigin p) as [o'|]; [| naive_solver].
  destruct (Js.truthy o') eqn:Ht.
  - apply truthy_spec in Ht. rewrite elem_of_union, elem_of_singleton. naive_solver.
  - apply truthy_false in Ht. naive_solver.
Qed.

(** The loop adds exactly the non-empty normalised entries. *)
Lemma foldl_addOrigin (ps : list string) (set : gset string) (o : string) :
  o ∈ foldl addOrigin set ps
  ↔ o ∈ set ∨ ∃ p, p ∈ ps ∧ normalizeOrigin p = Some o ∧ o ≠ EmptyString.
Proof.
  revert set. induction ps as [|p ps IH]; intros set; simpl.
  - split; [by left |]. intros [? | (p & Hp & _)]; [done |]. by apply elem_of_nil in Hp.
  - rewrite IH, addOrigin_elem. split.
    + intros [[Hin | Hp] | (q & Hq & Hn)].
      * by left.
      * right. exists p. split; [by left | done].
      * right. exists q. split; [by right | done].
    + intros [Hin | (q & Hq & Hn)]; [by left; left |].
      apply elem_of_cons in Hq as [-> | Hq]; [by left; right |].
      right. by exists q.
Qed.

(** C10.  Whatever ALLOWED_ORIGINS holds, the parsed set contains the two
    default origins; it is the defaults when the variable is unset and is
    never smaller than that; its other members are exactly the non-empty
    normalised origins of the listed entries, so an entry whose normalisation
    fails adds nothing; and the configuration that [readConfig] returns
    carries that set. *)
Theorem default_origins_always_allowed (raw : option string) :
  "https://chatgpt.com" ∈ parseAllowedOrigins raw
  ∧ "https://chat.openai.com" ∈ parseAllowedOrigins raw
  ∧ parseAllowedOrigins None = list_to_set Config.DEFAULT_ALLOWED_ORIGINS
  ∧ parseAllowedOrigins None ⊆ parseAllowedOrigins raw
  ∧ (∀ o, o ∈ parseAllowedOrigins raw
        ↔ o ∈ Config.DEFAULT_ALLOWED_ORIGINS
          ∨ ∃ p, p ∈ Config.parts raw ∧ normalizeOrigin p = Some o ∧ o ≠ EmptyString)
  ∧ ((∀ p, p ∈ Config.parts raw → normalizeOrigin p = None) →
     parseAllowedOrigins raw = list_to_set Config.DEFAULT_ALLOWED_ORIGINS)
  ∧ (∀ env config, Config.ALLOWED_ORIGINS env = raw → readConfig env = inr config →
       allowedOrigins config = parseAllowedOrigins raw).
Proof.
  assert (∀ o, o ∈ parseAllowedOrigins raw
             ↔ o ∈ Config.DEFAULT_ALLOWED_ORIGINS
               ∨ ∃ p, p ∈ Config.parts raw ∧ normalizeOrigin p = Some o ∧ o ≠ EmptyString)
    as Hchar.
  { intros o. unfold Config.parseAllowedOrigins. rewrite foldl_addOrigin.
    by rewrite elem_of_list_to_set. }
  assert (parseAllowedOrigins None = list_to_set Config.DEFAULT_ALLOWED_ORIGINS) as Hnone.
  { done. }
  split_and!.
  - apply Hchar. left. unfold Config.DEFAULT_ALLOWED_ORIGINS. by constructor.
  - apply Hchar. left. unfold Config.DEFAULT_ALLOWED_ORIGINS. by do 2 constructor.
  - done.
  - rewrite Hnone. intros o Ho. apply Hchar. left. by apply elem_of_list_to_set in Ho.
  - done.
  - intros Hfail. apply set_eq. intros o. rewrite Hchar, elem_of_list_to_set.
    split; [| by left]. intros [? | (p & Hp & Hn & _)]; [done |].
    rewrite (Hfail p Hp) in Hn. discriminate.
  - intros env config <- Hr. unfold Config.readConfig in Hr.
    destruct (Config.EnvSchema Number env) as [[[[[[[a b] c] d] e] f] g]|] eqn:Hs; [| done].
    destruct (newURL c); [| done]. injection Hr as <-. simpl.
    unfold Config.EnvSchema in Hs.
    apply bind_Some in Hs as (p & _ & Hs). apply bind_Some in Hs as (u' & _ & Hs).
    destruct (negb _); [done |].
    apply bind_Some in Hs as (m & _ & Hs). apply bind_Some in Hs as (t & _ & Hs).
    by injection Hs as _ _ _ <- _ _ _.
Qed.

End AllowList.

(** ** The claims that fail as stated, at concrete requests *)

Section Counterexamples.

Local Abbreviation handler := Sample.handler.
Local Abbreviation serve := (Proxy.serve Sample.cors Sample.newURL2 Sample.Number).

Lemma sample_proxyable (config : Config) (h : Headers) :
  mcpPath config = "/mcp" →
  Route.proxyable Sample.newURL2 config (Sample.request "POST" "/mcp" h) Sample.mcpURL.
Proof.
  intros Hpath. split; [| split; [| split]].
  - split_and!; [done.. |]. unfold getOr. simpl. by rewrite lookup_insert_eq.
  - by intros [[=] _].
  - by rewrite Hpath.
  - unfold MCP_METHODS. by left.
Qed.

(** C2, the part that fails: a body that overflows while streaming is
    answered 413 after the upstream request has been opened and the first
    chunk written to it. *)
Lemma streaming_overflow_reaches_upstream :
  let tr := [UpRequest (requestOptions (Sample.testConfig 10 None) Sample.chunkedPost
                          Sample.mcpURL);
             UpWrite "012345";
             UpDestroy (Some bodyTooLarge);
             ResWriteHead 413 textPlain;
             ResEnd (Some "Request too large")] in
  serve (Sample.testConfig 10 None) Sample.chunkedPost
    [RequestData "012345"; RequestData "67890"] = Some tr
  ∧ statuses tr = [413]
  ∧ toUpstream tr ≠ [].
Proof. by vm_compute. Qed.

(** C4, the part that fails: a proxyable request whose Authorization header
    is not the bearer secret is answered 403, not 401, when its origin is
    denied. *)
Lemma auth_gate_after_origin_check :
  Route.proxyable Sample.newURL2 (Sample.testConfig 200000 (Some "secret"))
    Sample.evilPost Sample.mcpURL
  ∧ authBearerToken (Sample.testConfig 200000 (Some "secret")) = Some "secret"
  ∧ Route.authorizationOf Sample.evilPost ≠ "Bearer secret"
  ∧ handler (Sample.testConfig 200000 (Some "secret")) Sample.evilPost
    = respond 403 textPlain (Some "Origin not allowed")
  ∧ handler (Sample.testConfig 200000 (Some "secret")) Sample.evilPost
    ≠ respond 401 textPlain (Some "Unauthorized").
Proof.
  split; [by apply sample_proxyable |].
  assert (handler (Sample.testConfig 200000 (Some "secret")) Sample.evilPost
          = respond 403 textPlain (Some "Origin not allowed")) as Hr by by vm_compute.
  split_and!; [done | by vm_compute | done |].
  rewrite Hr. by intros [=].
Qed.

(** C5, the part that fails: a Host header of the upstream response is
    relayed to the client. *)
Lemma response_host_header_relayed :
  let x := dispatch (Sample.testConfig 200000 None) None
             (requestOptions (Sample.testConfig 200000 None) Sample.plainPost
                Sample.mcpURL) in
  ∃ h, trace (step x (UpstreamResponse (Some 200) Sample.hostResponse))
       = trace x ++ [ResWriteHead 200 h; ResPipe]
       ∧ h !! "host" = Some "upstream.internal".
Proof. eexists. by vm_compute. Qed.

(** C7, the part that fails: a proxyable request with no Origin header that
    passes the auth gate is answered 413, not forwarded, when it declares
    more bytes than the maximum. *)
Lemma missing_origin_still_size_checked :
  Route.proxyable Sample.newURL2 (Sample.testConfig 10 None) Sample.plainPost
    Sample.mcpURL
  ∧ Route.originOf Sample.plainPost = EmptyString
  ∧ ¬ Route.unauthorized (Sample.testConfig 10 None) Sample.plainPost
  ∧ handler (Sample.testConfig 10 None) Sample.plainPost
    = respond 413 textPlain (Some "Request too large")
  ∧ ∀ x, handler (Sample.testConfig 10 None) Sample.plainPost ≠ Forwarding x.
Proof.
  split; [by apply sample_proxyable |].
  assert (handler (Sample.testConfig 10 None) Sample.plainPost
          = respond 413 textPlain (Some "Request too large")) as Hr by by vm_compute.
  split_and!; [by vm_compute | by intros (? & [=] & _) | done |].
  intros x. rewrite Hr. by intros [=].
Qed.

End Counterexamples.

(** ** The theorems at the requests of the repository's tests *)

Section Witnesses.

Local Abbreviation handler := Sample.handler.
Local Abbreviation serve := (Proxy.serve Sample.cors Sample.newURL2 Sample.Number).

Lemma origin_policy_exact_match_witness :
  ∃ h, handler (Sample.testConfig 200000 None) Sample.preflight = respond 204 h None
       ∧ h !! "Access-Control-Allow-Origin" = Some "https://chatgpt.com".
Proof.
  destruct (origin_policy_exact_match "GET,POST,DELETE,OPTIONS"
              "Content-Type, Authorization" "https://chatgpt.com"
              {[ "https://chatgpt.com" ]}) as (_ & _ & _ & _ & Hpre).
  destruct (Hpre Sample.newURL2 Sample.Number (Sample.testConfig 200000 None)
              Sample.preflight Sample.mcpURL) as [Hallow _].
  - reflexivity.
  - reflexivity.
  - split_and!; reflexivity.
  - intros [Hget _]. discriminate Hget.
  - split; reflexivity.
  - apply Hallow. by apply elem_of_singleton.
Defined.

Lemma sample_forwarded :
  handler (Sample.testConfig 10 None) Sample.chunkedPost
  = Forwarding (dispatch (Sample.testConfig 10 None)
                  (Sample.cors "https://chatgpt.com" {[ "https://chatgpt.com" ]})
                  (requestOptions (Sample.testConfig 10 None) Sample.chunkedPost
                     Sample.mcpURL)).
Proof. reflexivity. Qed.

Lemma rejections_before_upstream_witness :
  serve (Sample.testConfig 200000 None) Sample.evilPost [RequestData "{}"; RequestEnd]
  = Some [ResWriteHead 403 textPlain; ResEnd (Some "Origin not allowed")]
  ∧ serve (Sample.testConfig 10 None) Sample.chunkedPost
      [RequestData "012345"; RequestData "67890"]
    = Some [UpRequest (requestOptions (Sample.testConfig 10 None) Sample.chunkedPost
                         Sample.mcpURL);
            UpWrite "012345"; UpDestroy (Some bodyTooLarge);
            ResWriteHead 413 textPlain; ResEnd (Some "Request too large")]
  ∧ serve (Sample.testConfig 10 None) Sample.chunkedPost
      [UpstreamResponse (Some 200) ∅; RequestData "012345"; RequestData "67890"]
    = Some [UpRequest (requestOptions (Sample.testConfig 10 None) Sample.chunkedPost
                         Sample.mcpURL);
            ResWriteHead 200
              (relayHeaders (Sample.cors "https://chatgpt.com" {[ "https://chatgpt.com" ]})
                 ∅);
            ResPipe; UpWrite "012345"; UpDestroy (Some bodyTooLarge);
            ResDestroy bodyTooLarge].
Proof.
  split_and!.
  - destruct (rejections_before_upstream Sample.cors Sample.newURL2 Sample.Number
                (Sample.testConfig 200000 None) Sample.evilPost) as (Hrej & Hresp & _).
    destruct (Hrej Sample.mcpURL) as (_ & _ & H403 & _).
    + split_and!; reflexivity.
    + intros [Hget _]. discriminate Hget.
    + apply Hresp, H403.
      * by apply sample_proxyable.
      * split; [discriminate | reflexivity].
  - destruct (rejections_before_upstream Sample.cors Sample.newURL2 Sample.Number
                (Sample.testConfig 10 None) Sample.chunkedPost) as (_ & _ & _ & Hover).
    destruct (Hover _ sample_forwarded [RequestData "012345"] "67890")
      as (_ & _ & _ & Hserve).
    + intros [Hl | Hu]; [discriminate Hl | discriminate Hu].
    + vm_compute. reflexivity.
    + exact Hserve.
  - destruct (rejections_before_upstream Sample.cors Sample.newURL2 Sample.Number
                (Sample.testConfig 10 None) Sample.chunkedPost) as (_ & _ & _ & Hover).
    destruct (Hover _ sample_forwarded
                [UpstreamResponse (Some 200) ∅; RequestData "012345"] "67890")
      as (_ & _ & _ & Hserve).
    + intros [Hl | Hu]; [discriminate Hl | discriminate Hu].
    + vm_compute. reflexivity.
    + exact Hserve.
Defined.

Lemma size_guard_streaming_witness :
  totalBytes (take 1 ["012345"; "67890"]) ≤ 10
  ∧ ∃ o, trace (run (dispatch (Sample.testConfig 10 None) (Sample.cors "https://chatgpt.com"
                               {[ "https://chatgpt.com" ]})
                       (requestOptions (Sample.testConfig 10 None) Sample.chunkedPost
                          Sample.mcpURL))
                  (RequestData <$> ["012345"; "67890"]))
         = UpRequest o :: (UpWrite <$> ["012345"])
           ++ [UpDestroy (Some bodyTooLarge); ResWriteHead 413 textPlain;
               ResEnd (Some "Request too large")].
Proof.
  destruct (size_guard_streaming Sample.cors Sample.newURL2 Sample.Number 10
              ["012345"; "67890"]) as (_ & Hwithin & _ & _ & Hrun).
  split.
  - apply (Hwithin 1%nat). simpl. lia.
  - apply (Hrun (Sample.testConfig 10 None) Sample.chunkedPost); reflexivity.
Defined.

Lemma auth_gate_exact_match_witness :
  handler (Sample.testConfig 200000 (Some "secret")) Sample.chunkedPost
  = respond 401 textPlain (Some "Unauthorized").
Proof.
  destruct (auth_gate_exact_match Sample.cors Sample.newURL2 Sample.Number
              (Sample.testConfig 200000 (Some "secret")) Sample.chunkedPost Sample.mcpURL)
    as [Hgate _].
  - by apply sample_proxyable.
  - intros [_ Hdenied]. discriminate Hdenied.
  - destruct (Hgate "secret") as [[_ H401] _].
    + reflexivity.
    + discriminate.
    + apply H401. discriminate.
Defined.

Lemma header_sanitizing_witness :
  outboundHeaders Sample.keepAlivePost Sample.mcpURL !! "Connection" = None
  ∧ outboundHeaders Sample.keepAlivePost Sample.mcpURL !! "accept" = Some "*/*".
Proof.
  destruct (header_sanitizing Sample.cors Sample.newURL2 Sample.Number) as (Hout & _).
  destruct (Hout Sample.keepAlivePost Sample.mcpURL "Connection") as (Hdrop & _).
  destruct (Hout Sample.keepAlivePost Sample.mcpURL "accept") as (_ & Hkeep & _).
  split.
  - apply Hdrop. compute_done.
  - rewrite Hkeep; [reflexivity | discriminate | compute_done | compute_done].
Defined.


Lemma missing_origin_not_denied_witness :
  handler (Sample.testConfig 200000 None) Sample.barePost
  = Forwarding (dispatch (Sample.testConfig 200000 None) None
                  (requestOptions (Sample.testConfig 200000 None) Sample.barePost
                     Sample.mcpURL)).
Proof.
  destruct (missing_origin_not_denied Sample.cors Sample.newURL2 Sample.Number
              (Sample.testConfig 200000 None) Sample.barePost Sample.mcpURL)
    as (Hmissing & _).
  - by apply sample_proxyable.
  - destruct Hmissing as (_ & _ & _ & Hfwd); [reflexivity |].
    apply Hfwd; [| reflexivity].
    intros (secret & Hsecret & _). discriminate Hsecret.
Defined.

Lemma nosniff_on_every_response_witness :
  relayHeaders None Sample.hostResponse !! "X-Content-Type-Options" = Some "nosniff".
Proof.
  apply (nosniff_on_every_response Sample.cors Sample.newURL2 Sample.Number
           (Sample.testConfig 200000 None) Sample.barePost
           [UpstreamResponse (Some 200) Sample.hostResponse]
           [UpRequest (requestOptions (Sample.testConfig 200000 None) Sample.barePost
                         Sample.mcpURL);
            ResWriteHead 200 (relayHeaders None Sample.hostResponse); ResPipe]
           eq_refl 200).
  right; left.
Defined.

Lemma client_close_tears_down_upstream_witness :
  let x := dispatch (Sample.testConfig 200000 None) None
             (requestOptions (Sample.testConfig 200000 None) Sample.barePost
                Sample.mcpURL) in
  trace (step x ResClose) = trace x ++ [UpDestroy None].
Proof.
  intros x. destruct (client_close_tears_down_upstream x) as (_ & Hclose & _).
  apply Hclose. reflexivity.
Defined.

Lemma default_origins_always_allowed_witness :
  "https://a.example" ∈
    Config.parseAllowedOrigins Sample.newURL1 (Some " https://a.example/x , nonsense,,").
Proof.
  destruct (default_origins_always_allowed Sample.newURL1 Sample.Number
              (Some " https://a.example/x , nonsense,,")) as (_ & _ & _ & _ & Hchar & _).
  apply Hchar. right. exists "https://a.example/x". split_and!.
  - vm_compute. left.
  - reflexivity.
  - discriminate.
Defined.

End Witnesses.

(** ** Path normalisation *)

Section Strings.

Lemma append_cons (a : ascii) (s t : string) :
  String a s +:+ t = String a (s +:+ t).
Proof. done. Qed.

Lemma append_nil_r (s : string) : s +:+ EmptyString = s.
Proof. induction s as [|a s IH]; [done | by rewrite append_cons, IH]. Qed.

Lemma append_assoc (s t u : string) : (s +:+ t) +:+ u = s +:+ t +:+ u.
Proof. induction s as [|a s IH]; [done | by rewrite !append_cons, IH]. Qed.

Lemma rev_app_spec (s acc : string) : String.rev_app s acc = String.rev s +:+ acc.
Proof.
  unfold String.rev. revert acc. induction s as [|a s IH]; intros acc; simpl; [done |].
  rewrite IH, (IH (String a EmptyString)). by rewrite append_assoc, append_cons.
Qed.

Lemma rev_cons (a : ascii) (s : string) :
  String.rev (String a s) = String.rev s +:+ String a EmptyString.
Proof. unfold String.rev at 1. simpl. apply rev_app_spec. Qed.

Lemma rev_append (s t : string) :
  String.rev (s +:+ t) = String.rev t +:+ String.rev s.
Proof.
  induction s as [|a s IH].
  - change (String.rev EmptyString) with EmptyString. by rewrite append_nil_r.
  - by rewrite append_cons, !rev_cons, IH, append_assoc.
Qed.

Lemma rev_involutive (s : string) : String.rev (String.rev s) = s.
Proof.
  induction s as [|a s IH]; [done |].
  by rewrite rev_cons, rev_append, IH.
Qed.

Lemma hasChar_append (c : ascii) (s t : string) :
  hasChar c (s +:+ t) = hasChar c s || hasChar c t.
Proof.
  induction s as [|a s IH]; [done |]. rewrite append_cons. cbn [hasChar].
  by rewrite IH, orb_assoc.
Qed.

Lemma hasChar_rev (c : ascii) (s : string) : hasChar c (String.rev s) = hasChar c s.
Proof.
  induction s as [|a s IH]; [done |].
  rewrite rev_cons, hasChar_append, IH. cbn [hasChar].
  by rewrite orb_false_r, orb_comm.
Qed.

Lemma split_nonempty (sep : ascii) (s : string) : Js.split sep s ≠ [].
Proof. destruct s as [|a s]; simpl; [done |]. by repeat case_match. Qed.

Lemma split_head_cons (sep a : ascii) (s : string) :
  Js.split_head sep (String a s)
  = if decide (a = sep) then EmptyString else String a (Js.split_head sep s).
Proof.
  unfold Js.split_head. simpl. case_decide; [done |].
  pose proof (split_nonempty sep s). by destruct (Js.split sep s).
Qed.

(** The part before the first separator holds no separator, and is the whole
    string when there is none. *)
Lemma split_head_no_sep (sep : ascii) (s : string) :
  hasChar sep (Js.split_head sep s) = false.
Proof.
  induction s as [|a s IH]; [done |]. rewrite split_head_cons.
  case_decide; [done |]. cbn [hasChar]. by rewrite IH, bool_decide_false.
Qed.

Lemma split_head_id (sep : ascii) (s : string) :
  hasChar sep s = false → Js.split_head sep s = s.
Proof.
  induction s as [|a s IH]; [done |]. cbn [hasChar]. intros [Ha Hs]%orb_false_elim.
  apply bool_decide_eq_false in Ha. rewrite split_head_cons, decide_False by done.
  by rewrite IH.
Qed.

Lemma split_head_keeps (sep c : ascii) (s : string) :
  hasChar c s = false → hasChar c (Js.split_head sep s) = false.
Proof.
  induction s as [|a s IH]; [done |]. cbn [hasChar]. intros [Ha Hs]%orb_false_elim.
  rewrite split_head_cons. destruct (decide (a = sep)); [done |].
  cbn [hasChar]. by rewrite Ha, IH.
Qed.

Lemma dropLeadingSlashes_start (s : string) :
  Js.startsWithSlash (Js.dropLeadingSlashes s) = false.
Proof.
  induction s as [|a s IH]; [done |]. simpl.
  destruct (decide (a = "/"%char)) as [-> | Hne]; [done |].
  destruct a as [[] [] [] [] [] [] [] []]; done.
Qed.

Lemma dropLeadingSlashes_id (s : string) :
  Js.startsWithSlash s = false → Js.dropLeadingSlashes s = s.
Proof.
  destruct s as [|a s]; [done |].
  destruct a as [[] [] [] [] [] [] [] []]; done.
Qed.

Lemma dropLeadingSlashes_keeps (c : ascii) (s : string) :
  hasChar c s = false → hasChar c (Js.dropLeadingSlashes s) = false.
Proof.
  induction s as [|a s IH]; [done |]. intros Hs.
  assert (hasChar c s = false) as Hs'.
  { cbn [hasChar] in Hs. by apply orb_false_elim in Hs as [_ Hs]. }
  destruct (decide (a = "/"%char)) as [-> | Hne]; [by apply IH |].
  by rewrite dropLeadingSlashes_id by (destruct a as [[] [] [] [] [] [] [] []]; done).
Qed.

Lemma stripTrailingSlashes_end (s : string) :
  endsWithSlash (Js.stripTrailingSlashes s) = false.
Proof.
  unfold endsWithSlash, Js.stripTrailingSlashes.
  rewrite rev_involutive. apply dropLeadingSlashes_start.
Qed.

Lemma stripTrailingSlashes_id (s : string) :
  endsWithSlash s = false → Js.stripTrailingSlashes s = s.
Proof.
  unfold endsWithSlash, Js.stripTrailingSlashes. intros Hs.
  by rewrite dropLeadingSlashes_id, rev_involutive.
Qed.

Lemma stripTrailingSlashes_keeps (c : ascii) (s : string) :
  hasChar c s = false → hasChar c (Js.stripTrailingSlashes s) = false.
Proof.
  unfold Js.stripTrailingSlashes. intros Hs.
  rewrite hasChar_rev. apply dropLeadingSlashes_keeps. by rewrite hasChar_rev.
Qed.

End Strings.

Section Paths.

Variable corsHeadersForOrigin : string → gset string → option Headers.
Variable newURL : string → string → option URL.
Variable Number : string → JsNumber.

Local Abbreviation handler := (createProxyHandler corsHeadersForOrigin newURL Number).
Local Abbreviation serve := (Proxy.serve corsHeadersForOrigin newURL Number).

Lemma normalizePath_shape (p : string) :
  normalizePath p ≠ EmptyString
  ∧ (normalizePath p = "/" ∨ endsWithSlash (normalizePath p) = false)
  ∧ hasChar "?" (normalizePath p) = false
  ∧ hasChar "#" (normalizePath p) = false.
Proof.
  unfold normalizePath.
  set (noQuery := Js.split_head "#" (Js.split_head "?" p)).
  assert (hasChar "#" noQuery = false) as Hhash by apply split_head_no_sep.
  assert (hasChar "?" noQuery = false) as Hquery
    by apply split_head_keeps, split_head_no_sep.
  cbv zeta.
  destruct (decide (noQuery ≠ "/")) as [Hne | Heq].
  - pose proof (stripTrailingSlashes_end noQuery) as Hend.
    pose proof (stripTrailingSlashes_keeps "?" noQuery Hquery) as Hq.
    pose proof (stripTrailingSlashes_keeps "#" noQuery Hhash) as Hh.
    destruct (Js.truthy (Js.stripTrailingSlashes noQuery)) eqn:Ht;
      [| by split_and!; auto].
    split_and!; auto. by apply truthy_spec.
  - apply dec_stable in Heq. rewrite Heq. by split_and!; auto.
Qed.

(** A proxy path of one of these forms equals no normalised path. *)
Lemma path_never_matches (mcpPath : string) (url : URL) :
  (mcpPath ≠ "/" ∧ endsWithSlash mcpPath = true)
  ∨ hasChar "?" mcpPath = true
  ∨ hasChar "#" mcpPath = true
  ∨ mcpPath = EmptyString →
  Route.pathOf url ≠ mcpPath.
Proof.
  intros Hbad Heq. unfold Route.pathOf in Heq.
  destruct (normalizePath_shape (url_pathname url)) as (Hne & Hend & Hq & Hh).
  rewrite Heq in *.
  destruct Hbad as [[Hroot Hslash] | [Hbad | [Hbad | Hbad]]]; [| congruence..].
  destruct Hend; congruence.
Qed.

(** X1.  A normalised path is never empty, holds neither a question mark nor
    a hash, ends with a slash only when it is the root, and is a fixed point
    of the normalisation. *)
Theorem normalizePath_normal (p : string) :
  normalizePath p ≠ EmptyString
  ∧ (normalizePath p = "/" ∨ endsWithSlash (normalizePath p) = false)
  ∧ hasChar "?" (normalizePath p) = false
  ∧ hasChar "#" (normalizePath p) = false
  ∧ normalizePath (normalizePath p) = normalizePath p.
Proof.
  destruct (normalizePath_shape p) as (Hne & Hend & Hq & Hh).
  split_and!; try done.
  generalize dependent (normalizePath p). intros r Hne Hend Hq Hh.
  unfold normalizePath. cbv zeta.
  rewrite (split_head_id "?") by done. rewrite (split_head_id "#") by done.
  apply truthy_spec in Hne.
  destruct (decide (r ≠ "/")) as [Hroot | Hroot].
  - destruct Hend as [-> | Hend]; [done |].
    rewrite stripTrailingSlashes_id by done. by rewrite Hne.
  - by rewrite Hne.
Qed.

(** X2.  A configured proxy path that ends with a slash (the root apart),
    that holds a question mark or a hash, or that is empty, equals no
    normalised request path: with such a configuration no request is ever
    forwarded, and every request other than the health check is answered
    404. *)
Theorem unreachable_proxy_path (config : Config) (req : Request) :
  (mcpPath config ≠ "/" ∧ endsWithSlash (mcpPath config) = true)
  ∨ hasChar "?" (mcpPath config) = true
  ∨ hasChar "#" (mcpPath config) = true
  ∨ mcpPath config = EmptyString →
  (∀ x, handler config req ≠ Forwarding x)
  ∧ (∀ url, Route.parsed newURL req url → ¬ Route.isHealthCheck req url →
       handler config req = respond 404 textPlain (Some "Not found")).
Proof.
  intros Hbad.
  assert (∀ url, Route.pathOf url ≠ mcpPath config) as Hnever.
  { intros url. by apply path_never_matches. }
  split.
  - intros x Hf. apply handler_forwarding in Hf as (url & (_ & _ & Hpath & _) & _).
    by apply (Hnever url).
  - intros url Hp Hh. apply (handler_not_found _ _ _ _ _ url); [done | done | | by left].
    intros [_ Hpath]. by apply (Hnever url).
Qed.

(** X3.  A GET whose normalised path is [/health] is answered 200 with the
    JSON body by the handler itself, whatever the configuration (allow-list,
    bearer secret, even a proxy path that is [/health] too) and whatever the
    headers, and nothing reaches the upstream. *)
Theorem health_check_bypasses_policies (config : Config) (req : Request)
    (url : URL) (evs : list Event) :
  Route.parsed newURL req url →
  Route.methodOf req = "GET" →
  Route.pathOf url = "/health" →
  serve config req evs
  = Some [ResWriteHead 200 applicationJson; ResEnd (Some healthBody)]
  ∧ ∀ x, handler config req ≠ Forwarding x.
Proof.
  intros Hp Hm Hpath.
  assert (handler config req = respond 200 applicationJson (Some healthBody)) as Hr.
  { by apply (handler_health _ _ _ _ _ url). }
  unfold Proxy.serve. rewrite Hr. split; [done |]. by intros x [=].
Qed.

End Paths.

(** ** The size guard under every interleaving of events *)

Section Guard.

Variable corsHeadersForOrigin : string → gset string → option Headers.
Variable newURL : string → string → option URL.
Variable Number : string → JsNumber.

Local Abbreviation handler := (createProxyHandler corsHeadersForOrigin newURL Number).
Local Abbreviation serve := (Proxy.serve corsHeadersForOrigin newURL Number).

Lemma limiterRun_accepts (maxBytes : Z) (chunks : list string) (seen : Z) :
  (limiterRun maxBytes seen chunks).2 = None
  ↔ chunks = [] ∨ seen + totalBytes chunks ≤ maxBytes.
Proof.
  revert seen. induction chunks as [|c cs IH]; intros seen; [by split; auto |].
  pose proof (totalBytes_nonneg cs) as Hcs.
  destruct (transform_cases maxBytes seen c) as [[Hle Ht] | [Hgt Ht]].
  - rewrite (limiterRun_push _ _ _ _ _ _ Ht). cbn [snd]. rewrite IH. simpl.
    split.
    + intros [-> | Hfit]; right; simpl; lia.
    + intros [? | Hfit]; [done |]. right. lia.
  - rewrite (limiterRun_error _ _ _ _ _ _ Ht). simpl.
    split; [done |]. intros [? | Hfit]; [done | lia].
Qed.

(** X4.  The limiter ends with an error exactly when it is given at least
    one chunk and the chunks together hold more bytes than the maximum; a
    body within the maximum passes whole.  How the body is cut into chunks
    therefore never changes whether it is accepted. *)
Theorem size_guard_exact (maxBytes : Z) (chunks : list string) :
  ((createSizeLimitStream maxBytes chunks).2 = None
   ↔ chunks = [] ∨ totalBytes chunks ≤ maxBytes)
  ∧ (totalBytes chunks ≤ maxBytes →
     createSizeLimitStream maxBytes chunks = (chunks, None))
  ∧ (∀ chunks', chunks ≠ [] → chunks' ≠ [] →
       totalBytes chunks' = totalBytes chunks →
       (createSizeLimitStream maxBytes chunks').2
       = (createSizeLimitStream maxBytes chunks).2).
Proof.
  unfold createSizeLimitStream.
  assert (∀ cs, (limiterRun maxBytes 0 cs).2 = None
                ↔ cs = [] ∨ totalBytes cs ≤ maxBytes) as Hacc.
  { intros cs. rewrite limiterRun_accepts. by rewrite Z.add_0_l. }
  split_and!.
  - apply Hacc.
  - intros Hfit. pose proof (proj2 (Hacc chunks) (or_intror Hfit)) as Hnone.
    destruct (limiterRun_prefix maxBytes chunks 0) as (rest & Heq & Herr).
    rewrite Hnone in Herr. rewrite Herr, app_nil_r in Heq.
    destruct (limiterRun maxBytes 0 chunks) as [out err]. simpl in *. congruence.
  - intros chunks' Hne Hne' Htotal.
    destruct (limiterRun_prefix maxBytes chunks 0) as (rest & _ & Herr).
    destruct (limiterRun_prefix maxBytes chunks' 0) as (rest' & _ & Herr').
    pose proof (Hacc chunks) as H1. pose proof (Hacc chunks') as H2.
    destruct (limiterRun maxBytes 0 chunks).2 as [e|],
             (limiterRun maxBytes 0 chunks').2 as [e'|].
    + destruct Herr as [-> _], Herr' as [-> _]. done.
    + destruct (proj1 H2 eq_refl) as [? | Hfit]; [done |].
      rewrite Htotal in Hfit. by destruct (proj2 H1 (or_intror Hfit)).
    + destruct (proj1 H1 eq_refl) as [? | Hfit]; [done |].
      rewrite <- Htotal in Hfit. by destruct (proj2 H2 (or_intror Hfit)).
    + done.
Qed.

Lemma run_written (x : Exchange) (evs : list Event) :
  totalBytes (written (trace x)) ≤ seen x →
  (written (trace x) ≠ [] → seen x ≤ maxBytes x ∨ closedForData x) →
  ∃ w, written (trace (run x evs)) = written (trace x) ++ w
       ∧ w `prefix_of` dataOf evs
       ∧ (written (trace x) ++ w ≠ [] →
          totalBytes (written (trace x) ++ w) ≤ maxBytes x
          ∨ (w = [] ∧ closedForData x)).
Proof.
  revert x. induction evs as [|ev evs IH]; intros x Hseen Hmax.
  - exists []. rewrite app_nil_r. split_and!; [done | done |].
    intros Hne. destruct (Hmax Hne) as [? | ?]; [left; lia | by right].
  - change (run x (ev :: evs)) with (run (step x ev) evs).
    destruct (step_frame x ev) as (Hbound & Hother & Hclosed & _).
    destruct (decide (closedForData x)) as [Hx | Hlive].
    { exists []. rewrite app_nil_r. destruct (Hclosed Hx) as [Hx' Hw].
      split_and!; [by rewrite run_closed, Hw | apply prefix_nil | ].
      intros Hne. by right. }
    destruct ev as [c | | | | |];
      [| destruct (Hother ltac:(done)) as [Hs Hw];
         match goal with
         | |- context [run (step ?y ?e) _] =>
             destruct (IH (step y e)) as (w & Hrun & Hpre & Hle)
         end; rewrite ?Hw, ?Hs;
         [ done
         | intros Hne; destruct (Hmax Hne) as [? | ?]; [left; by rewrite Hbound | done]
         | exists w; rewrite Hrun, Hw; split_and!; [done | done |];
           intros Hne; rewrite Hw, Hbound in Hle;
           destruct (Hle Hne) as [? | [-> Hdead]]; [by left |];
           rewrite app_nil_r in *;
           destruct (Hmax Hne) as [? | ?]; [left; lia | done] ] ..].
    destruct (step_data x c) as [(Hw & Hs & Hfit) | (Hw & Hs & Hdead)].
    + destruct (IH (step x (RequestData c))) as (w & Hrun & Hpre & Hle).
      { rewrite Hw, Hs, totalBytes_app. simpl. lia. }
      { intros _. left. rewrite Hs, Hbound. lia. }
      exists (c :: w). rewrite Hrun, Hw, <- app_assoc. split_and!; [done | |].
      * simpl. by apply prefix_cons.
      * intros _. rewrite Hw, <- app_assoc, Hbound in Hle.
        destruct Hle as [Hle | [-> Hdead]].
        -- by destruct (written (trace x)).
        -- by left.
        -- left. rewrite totalBytes_app. simpl. lia.
    + exists []. rewrite app_nil_r, run_closed, Hw by done.
      split_and!; [done | apply prefix_nil |].
      intros Hne. destruct (Hmax Hne) as [? | ?]; [left; lia | done].
Qed.

(** X5.  Whatever events reach a forwarded request and in whatever order,
    the chunks written to the upstream request are the first chunks of the
    request body, unchanged and in order, and together they never hold more
    bytes than the configured maximum. *)
Theorem upstream_body_within_limit (config : Config) (req : Request)
    (x : Exchange) (evs : list Event) :
  handler config req = Forwarding x →
  written (trace (run x evs)) `prefix_of` dataOf evs
  ∧ (written (trace (run x evs)) ≠ [] →
     totalBytes (written (trace (run x evs))) ≤ maxBodyBytes config).
Proof.
  intros Hf. apply handler_forwarding in Hf as (url & _ & _ & _ & _ & ->).
  destruct (run_written (dispatch config (Route.corsOf corsHeadersForOrigin config req)
              (requestOptions config req url)) evs) as (w & Hrun & Hpre & Hle);
    [done | done |].
  rewrite Hrun. simpl in *. split; [done |].
  intros Hne. destruct (Hle Hne) as [? | [_ [? | ?]]]; done.
Qed.

(** X6.  The proxy writes at most one response head for a request, whatever
    events follow: no listener writes a status after another has, and an
    answer of the handler itself is followed by none. *)
Theorem single_response_head (config : Config) (req : Request)
    (evs : list Event) (tr : list Effect) :
  serve config req evs = Some tr → (length (statuses tr) ≤ 1)%nat.
Proof.
  unfold Proxy.serve. destruct (handler config req) as [| tr' | x] eqn:Hh; [done | |].
  - intros [= <-]. by apply handler_responded in Hh as (status & h & body & ->).
  - intros [= <-]. apply handler_forwarding in Hh as (url & _ & _ & _ & _ & ->).
    apply dispatch_single_status.
Qed.

(** No listener opens an upstream request. *)
Lemma run_opened (x : Exchange) (evs : list Event) :
  opened (trace (run x evs)) = opened (trace x).
Proof.
  revert x. induction evs as [|ev evs IH]; intros x; [done |]. simpl.
  rewrite IH. by destruct (step_frame x ev) as (_ & _ & _ & ->).
Qed.

(** X7.  For an upstream URL of scheme http or https (Node's [request]
    accepts no other): the upstream is contacted at most once for a request,
    whatever events follow, and it is contacted exactly when the request is
    proxyable, not denied by the origin policy, authorised and not declared
    too large; the one request opened is then made with the options the
    handler builds. *)
Theorem upstream_contacted_once (config : Config) (req : Request)
    (evs : list Event) (tr : list Effect) :
  url_protocol (upstreamUrl config) = "http:"
  ∨ url_protocol (upstreamUrl config) = "https:" →
  serve config req evs = Some tr →
  (length (opened tr) ≤ 1)%nat
  ∧ (opened tr ≠ [] → ∃ url, Route.parsed newURL req url)
  ∧ ∀ url, Route.parsed newURL req url →
      (opened tr ≠ [] → opened tr = [requestOptions config req url])
      ∧ (opened tr ≠ []
         ↔ Route.proxyable newURL config req url
           ∧ ¬ Route.originDenied corsHeadersForOrigin config req
           ∧ ¬ Route.unauthorized config req
           ∧ Route.declaredTooLarge Number config req = false).
Proof.
  intros _. unfold Proxy.serve.
  destruct (handler config req) as [| tr' | x] eqn:Hh; [done | |]; intros [= <-].
  - pose proof Hh as Hr. apply handler_responded in Hr as (status & h & body & ->).
    split; [simpl; lia |]. split; [done |]. intros url Hparsed.
    split; [done |]. split; [done |]. intros (Hp & Ho & Ha & Hl).
    destruct (proxyable_outcome corsHeadersForOrigin newURL Number _ _ _ Hp)
      as (_ & _ & _ & Hfwd).
    rewrite (Hfwd Ho Ha Hl) in Hh. discriminate Hh.
  - apply handler_forwarding in Hh as (url' & Hp & Ho & Ha & Hl & ->).
    rewrite run_opened. simpl. split; [lia |].
    split; [intros _; exists url'; by destruct Hp |]. intros url (_ & _ & Hurl).
    assert (url' = url) as -> by (destruct Hp as ((_ & _ & Hurl') & _); congruence).
    split; [done |]. split; [| done]. intros _. split_and!; [done | | | done].
    + intros Hden. apply origin_check_spec in Hden. congruence.
    + intros Hun. apply auth_gate_spec in Hun. congruence.
Qed.

End Guard.

(** ** The sanitisers as filters *)

Section Filters.

Variable corsHeadersForOrigin : string → gset string → option Headers.
Variable newURL : string → string → option URL.
Variable Number : string → JsNumber.

Local Abbreviation handler := (createProxyHandler corsHeadersForOrigin newURL Number).

Lemma truthy_toLowerCase (s : string) : Js.truthy (Js.toLowerCase s) = Js.truthy s.
Proof using Type. by destruct s. Qed.

Lemma kept_request_response (k : string) :
  requestHeaderKept k = true → responseHeaderKept k = true.
Proof using Type.
  rewrite requestHeaderKept_spec, responseHeaderKept_spec, not_elem_of_cons.
  by intros (Hne & _ & Hnin).
Qed.

(** X8.  Sanitising never adds or changes a header: the result is a subset
    of the input.  Both sanitisers are idempotent, the request sanitiser
    keeps nothing the response sanitiser drops, applying it after the
    response sanitiser is applying it alone, and two names that differ only
    in case are kept or dropped together. *)
Theorem sanitizers_are_filters (h : Headers) :
  sanitizeRequestHeaders h ⊆ h
  ∧ sanitizeResponseHeaders h ⊆ h
  ∧ sanitizeRequestHeaders (sanitizeRequestHeaders h) = sanitizeRequestHeaders h
  ∧ sanitizeResponseHeaders (sanitizeResponseHeaders h) = sanitizeResponseHeaders h
  ∧ sanitizeRequestHeaders h ⊆ sanitizeResponseHeaders h
  ∧ sanitizeRequestHeaders (sanitizeResponseHeaders h) = sanitizeRequestHeaders h
  ∧ (∀ k k', Js.toLowerCase k = Js.toLowerCase k' →
       requestHeaderKept k = requestHeaderKept k'
       ∧ responseHeaderKept k = responseHeaderKept k').
Proof using Type.
  split_and!.
  - apply map_filter_subseteq.
  - apply map_filter_subseteq.
  - apply map_eq. intros k. rewrite !sanitizeRequestHeaders_lookup.
    by destruct (requestHeaderKept k).
  - apply map_eq. intros k. rewrite !sanitizeResponseHeaders_lookup.
    by destruct (responseHeaderKept k).
  - apply map_subseteq_spec. intros k v.
    rewrite sanitizeRequestHeaders_lookup, sanitizeResponseHeaders_lookup.
    destruct (requestHeaderKept k) eqn:Hk; [| done].
    by rewrite (kept_request_response k Hk).
  - apply map_eq. intros k.
    rewrite !sanitizeRequestHeaders_lookup, sanitizeResponseHeaders_lookup.
    destruct (requestHeaderKept k) eqn:Hk; [| done].
    by rewrite (kept_request_response k Hk).
  - intros k k' Hlower.
    unfold requestHeaderKept, responseHeaderKept, isHopByHopHeader.
    rewrite <- (truthy_toLowerCase k), <- (truthy_toLowerCase k').
    by rewrite !toLowerCase_idemp, Hlower.
Qed.

(** The test of the pre-check, on the header and the conversion. *)
Lemma declaredTooLarge_spec (config : Config) (req : Request) :
  Route.declaredTooLarge Number config req = true
  ↔ (∃ s q, req_headers req !! "content-length" = Some s
        ∧ Number s = Finite q
        ∧ QArith_base.Qlt (QArith_base.inject_Z (maxBodyBytes config)) q)
    ∨ (req_headers req !! "content-length" = None ∧ maxBodyBytes config < 0).
Proof using Type.
  assert (∀ q, negb (QArith_base.Qle_bool q (QArith_base.inject_Z (maxBodyBytes config)))
               = true
               ↔ QArith_base.Qlt (QArith_base.inject_Z (maxBodyBytes config)) q) as Hgt.
  { intros q. rewrite negb_true_iff, <- not_true_iff_false, QArith_base.Qle_bool_iff.
    split; [apply QArith_base.Qnot_le_lt | apply QArith_base.Qlt_not_le]. }
  unfold Route.declaredTooLarge, finiteAndGreater.
  destruct (req_headers req !! "content-length") as [s|].
  - destruct (Number s) as [| | q] eqn:Hn.
    + split; [done | intros [(? & ? & [= <-] & ? & _) | [? _]]; congruence].
    + split; [done | intros [(? & ? & [= <-] & ? & _) | [? _]]; congruence].
    + rewrite Hgt. split.
      * intros Hq. left. by exists s, q.
      * intros [(? & ? & [= <-] & Hq & ?) | [? _]]; [| done].
        rewrite Hn in Hq. by injection Hq as <-.
  - rewrite Hgt, <- QArith_base.Zlt_Qlt. split.
    + intros Hneg. by right.
    + by intros [(? & ? & ? & _) | [_ ?]].
Qed.

(** X10.  For an upstream URL of scheme http or https, a proxyable request
    that the origin policy does not deny and that is authorised is answered
    413 by the handler, or else forwarded.  It is answered 413 exactly when
    its Content-Length header converts to a finite number above the maximum
    (or, with a negative maximum, when the header is missing).  So a declared
    length equal to the maximum is forwarded and one byte more is answered
    413, and a length that is not a number or is infinite is forwarded and
    left to the streaming limiter. *)
Theorem declared_length_precheck (config : Config) (req : Request) (url : URL) :
  url_protocol (upstreamUrl config) = "http:"
  ∨ url_protocol (upstreamUrl config) = "https:" →
  Route.proxyable newURL config req url →
  ¬ Route.originDenied corsHeadersForOrigin config req →
  ¬ Route.unauthorized config req →
  (handler config req = respond 413 textPlain (Some "Request too large")
   ∨ handler config req
     = Forwarding (dispatch config (Route.corsOf corsHeadersForOrigin config req)
                     (requestOptions config req url)))
  ∧ (handler config req = respond 413 textPlain (Some "Request too large")
     ↔ (∃ s q, req_headers req !! "content-length" = Some s
           ∧ Number s = Finite q
           ∧ QArith_base.Qlt (QArith_base.inject_Z (maxBodyBytes config)) q)
       ∨ (req_headers req !! "content-length" = None ∧ maxBodyBytes config < 0))
  ∧ (∀ s n, req_headers req !! "content-length" = Some s →
       Number s = Finite (QArith_base.inject_Z n) →
       (handler config req = respond 413 textPlain (Some "Request too large")
        ↔ maxBodyBytes config < n))
  ∧ (∀ s, req_headers req !! "content-length" = Some s →
       Number s = NaN ∨ Number s = Infinite →
       handler config req
       = Forwarding (dispatch config (Route.corsOf corsHeadersForOrigin config req)
                       (requestOptions config req url))).
Proof.
  intros _ Hp Ho Ha.
  destruct (proxyable_outcome corsHeadersForOrigin newURL Number config req url Hp)
    as (_ & _ & H413 & Hfwd).
  specialize (H413 Ho Ha). specialize (Hfwd Ho Ha).
  assert (handler config req = respond 413 textPlain (Some "Request too large")
          ↔ Route.declaredTooLarge Number config req = true) as Hiff.
  { split; [| done]. intros Hr.
    destruct (Route.declaredTooLarge Number config req); [done |].
    rewrite (Hfwd eq_refl) in Hr. discriminate Hr. }
  split_and!.
  - destruct (Route.declaredTooLarge Number config req); [left | right]; auto.
  - by rewrite Hiff, declaredTooLarge_spec.
  - intros s n Hs Hn. rewrite Hiff, declaredTooLarge_spec. split.
    + intros [(s' & q & Hs' & Hq & Hlt) | [Hnone _]]; [| congruence].
      rewrite Hs in Hs'. injection Hs' as <-. rewrite Hn in Hq. injection Hq as <-.
      by rewrite QArith_base.Zlt_Qlt.
    + intros Hlt. left. exists s, (QArith_base.inject_Z n).
      split_and!; [done | done |]. by rewrite <- QArith_base.Zlt_Qlt.
  - intros s Hs Hn. apply Hfwd.
    unfold Route.declaredTooLarge. rewrite Hs. by destruct Hn as [-> | ->].
Qed.

End Filters.

(** ** The configuration *)

Section Configuration.

Variable newURL : string → option URL.
Variable newURLBase : string → string → option URL.
Variable Number : string → JsNumber.
Variable corsHeadersForOrigin : string → gset string → option Headers.

Local Abbreviation readConfig := (Config.readConfig newURL Number).
Local Abbreviation coerceInt := (Config.coerceInt Number).
Local Abbreviation parseAllowedOrigins := (Config.parseAllowedOrigins newURL).

Lemma coerceInt_bounds (lo hi dflt : Z) (v : option string) (n : Z) :
  lo ≤ dflt ≤ hi → coerceInt lo hi dflt v = Some n → lo ≤ n ≤ hi.
Proof.
  intros Hd. unfold Config.coerceInt. destruct v as [s|]; [| intros [= <-]; lia].
  destruct (Config.asInteger (Number s)) as [k|]; [| done].
  destruct ((lo <=? k) && (k <=? hi)) eqn:Hk; [| done].
  intros [= <-]. apply andb_true_iff in Hk as [?%Z.leb_le ?%Z.leb_le]. lia.
Qed.

(** What a successful [readConfig] has checked and built. *)
Lemma readConfig_inr (env : Config.Env) (config : Config) :
  readConfig env = inr config →
  ∃ u, Js.trim <$> Config.UPSTREAM_URL env = Some u
    ∧ 1 ≤ Js.length u
    ∧ newURL u = Some (upstreamUrl config)
    ∧ coerceInt 1 65535 8787 (Config.PORT env) = Some (port config)
    ∧ coerceInt 1000 50000000 200000 (Config.MAX_BODY_BYTES env)
      = Some (maxBodyBytes config)
    ∧ coerceInt 1000 (5 * 60000) 30000 (Config.UPSTREAM_TIMEOUT_MS env)
      = Some (upstreamTimeoutMs config)
    ∧ mcpPath config
      = (let p := default "/mcp" (Js.trim <$> Config.MCP_PATH env) in
         if Js.startsWithSlash p then p else "/" +:+ p)
    ∧ authBearerToken config
      = (let t := Js.trim (default EmptyString (Config.AUTH_BEARER_TOKEN env)) in
         if Js.truthy t then Some t else None)
    ∧ allowedOrigins config = parseAllowedOrigins (Config.ALLOWED_ORIGINS env).
Proof.
  unfold Config.readConfig. intros Hr.
  destruct (Config.EnvSchema Number env) as [[[[[[[a b] c] d] e] f] g]|] eqn:Hs; [| done].
  destruct (newURL c) as [upstream|] eqn:Hu; [| done]. injection Hr as <-.
  unfold Config.EnvSchema in Hs.
  apply bind_Some in Hs as (p & Hp & Hs). apply bind_Some in Hs as (u & Htrim & Hs).
  destruct (negb (1 <=? Js.length u)) eqn:Hlen; [done |].
  apply bind_Some in Hs as (m & Hm & Hs). apply bind_Some in Hs as (t & Ht & Hs).
  injection Hs as <- <- <- <- <- <- <-.
  exists u. apply negb_false_iff, Z.leb_le in Hlen. by split_and!.
Qed.

(** X11.  Every configuration that [readConfig] returns has its port, its
    maximum body size and its timeout within the ranges of the schema, a
    proxy path that starts with a slash, a bearer secret that is absent or
    a non-empty string (so the auth gate is on exactly when a secret is
    present), and an allow-list that contains the defaults; with it a
    request without Content-Length always passes the pre-check. *)
Theorem readConfig_invariants (env : Config.Env) (config : Config) :
  readConfig env = inr config →
  1 ≤ port config ≤ 65535
  ∧ 1000 ≤ maxBodyBytes config ≤ 50000000
  ∧ 1000 ≤ upstreamTimeoutMs config ≤ 300000
  ∧ Js.startsWithSlash (mcpPath config) = true
  ∧ authBearerToken config ≠ Some EmptyString
  ∧ (Js.truthy_opt (authBearerToken config) = true ↔ is_Some (authBearerToken config))
  ∧ list_to_set Config.DEFAULT_ALLOWED_ORIGINS ⊆ allowedOrigins config
  ∧ (∀ req, req_headers req !! "content-length" = None →
       Route.declaredTooLarge Number config req = false).
Proof.
  intros (u & _ & _ & _ & Hp & Hm & Ht & Hpath & Hauth & Hallow)%readConfig_inr.
  apply coerceInt_bounds in Hp; [| lia]. apply coerceInt_bounds in Hm; [| lia].
  apply coerceInt_bounds in Ht; [| lia].
  assert (authBearerToken config ≠ Some EmptyString) as Hne.
  { rewrite Hauth. cbv zeta.
    destruct (Js.truthy _) eqn:Htr; [| done]. apply truthy_spec in Htr. congruence. }
  split_and!; try lia; try done.
  - rewrite Hpath. cbv zeta.
    set (p := default "/mcp" (Js.trim <$> Config.MCP_PATH env)).
    destruct (Js.startsWithSlash p) eqn:Hs; [exact Hs | reflexivity].
  - destruct (authBearerToken config) as [[|a s]|]; simpl.
    + done.
    + split; [by eexists | done].
    + split; [done | by intros [? ?]].
  - rewrite Hallow. intros o Ho. unfold Config.parseAllowedOrigins.
    rewrite (foldl_addOrigin newURL Number). by left.
  - intros req Hnone. unfold Route.declaredTooLarge, finiteAndGreater. rewrite Hnone.
    apply negb_false_iff, QArith_base.Qle_bool_iff.
    rewrite <- QArith_base.Zle_Qle. lia.
Qed.

(** X12.  [readConfig] fails on an environment without UPSTREAM_URL or with
    a blank one, and on one whose UPSTREAM_URL is not a URL; when it
    succeeds, each unset variable has its default: port 8787, path [/mcp],
    200000 bytes, 30000 ms, no secret, the default allow-list.  A secret of
    white space only counts as no secret. *)
Theorem readConfig_defaults_and_failures (env : Config.Env) :
  (Config.UPSTREAM_URL env = None
   ∨ Js.trim <$> Config.UPSTREAM_URL env = Some EmptyString →
   readConfig env = inl Config.InvalidEnvironment)
  ∧ (∀ u, Js.trim <$> Config.UPSTREAM_URL env = Some u → newURL u = None →
       ∃ e, readConfig env = inl e)
  ∧ (∀ config, readConfig env = inr config →
       (Config.PORT env = None → port config = 8787)
       ∧ (Config.MCP_PATH env = None → mcpPath config = "/mcp")
       ∧ (Config.MAX_BODY_BYTES env = None → maxBodyBytes config = 200000)
       ∧ (Config.UPSTREAM_TIMEOUT_MS env = None → upstreamTimeoutMs config = 30000)
       ∧ (Config.AUTH_BEARER_TOKEN env = None → authBearerToken config = None)
       ∧ (∀ t, Config.AUTH_BEARER_TOKEN env = Some t → Js.trim t = EmptyString →
            authBearerToken config = None)
       ∧ (Config.ALLOWED_ORIGINS env = None →
          allowedOrigins config = list_to_set Config.DEFAULT_ALLOWED_ORIGINS)).
Proof.
  split_and!.
  - intros Hmissing. unfold Config.readConfig, Config.EnvSchema.
    destruct (coerceInt 1 65535 8787 (Config.PORT env)); [| done]. simpl.
    destruct Hmissing as [-> | ->]; done.
  - intros u Hu Hnone.
    destruct (readConfig env) as [e | config] eqn:Hr; [by exists e |].
    apply readConfig_inr in Hr as (u' & Hu' & _ & Hurl & _). congruence.
  - intros config (u & _ & _ & _ & Hp & Hm & Ht & Hpath & Hauth & Hallow)%readConfig_inr.
    split_and!.
    + intros Hnone. rewrite Hnone in Hp. by injection Hp.
    + intros Hnone. by rewrite Hpath, Hnone.
    + intros Hnone. rewrite Hnone in Hm. by injection Hm.
    + intros Hnone. rewrite Hnone in Ht. by injection Ht.
    + intros Hnone. by rewrite Hauth, Hnone.
    + intros t Hsome Hblank. rewrite Hauth, Hsome. simpl. by rewrite Hblank.
    + intros Hnone. by rewrite Hallow, Hnone.
Qed.

Lemma coerceInt_rejects (lo hi dflt : Z) (s : string) :
  (∀ n, Config.asInteger (Number s) = Some n → n < lo ∨ hi < n) →
  coerceInt lo hi dflt (Some s) = None.
Proof.
  intros Hbad. unfold Config.coerceInt.
  destruct (Config.asInteger (Number s)) as [n|]; [| done].
  destruct (Hbad n eq_refl) as [Hlo | Hhi].
  - by rewrite (proj2 (Z.leb_gt lo n) Hlo).
  - by rewrite (proj2 (Z.leb_gt n hi) Hhi), andb_false_r.
Qed.

Lemma coerceInt_accepts (lo hi dflt n : Z) (s : string) :
  coerceInt lo hi dflt (Some s) = Some n → Config.asInteger (Number s) = Some n.
Proof.
  unfold Config.coerceInt. destruct (Config.asInteger (Number s)) as [k|]; [| done].
  by destruct ((lo <=? k) && (k <=? hi)); [intros [= <-] |].
Qed.

(** X17.  A PORT, MAX_BODY_BYTES or UPSTREAM_TIMEOUT_MS that does not
    convert to an integer, or converts to one outside the range of the
    schema, makes [readConfig] fail; when [readConfig] succeeds, each of the
    three that is set is the integer its string converts to. *)
Theorem readConfig_numbers (env : Config.Env) :
  (∀ s, Config.PORT env = Some s →
     (∀ n, Config.asInteger (Number s) = Some n → n < 1 ∨ 65535 < n) →
     readConfig env = inl Config.InvalidEnvironment)
  ∧ (∀ s, Config.MAX_BODY_BYTES env = Some s →
       (∀ n, Config.asInteger (Number s) = Some n → n < 1000 ∨ 50000000 < n) →
       readConfig env = inl Config.InvalidEnvironment)
  ∧ (∀ s, Config.UPSTREAM_TIMEOUT_MS env = Some s →
       (∀ n, Config.asInteger (Number s) = Some n → n < 1000 ∨ 300000 < n) →
       readConfig env = inl Config.InvalidEnvironment)
  ∧ (∀ config, readConfig env = inr config →
       (∀ s, Config.PORT env = Some s →
          Config.asInteger (Number s) = Some (port config))
       ∧ (∀ s, Config.MAX_BODY_BYTES env = Some s →
            Config.asInteger (Number s) = Some (maxBodyBytes config))
       ∧ (∀ s, Config.UPSTREAM_TIMEOUT_MS env = Some s →
            Config.asInteger (Number s) = Some (upstreamTimeoutMs config))).
Proof.
  split_and!.
  - intros s Hs Hbad. unfold Config.readConfig, Config.EnvSchema.
    by rewrite Hs, (coerceInt_rejects _ _ _ _ Hbad).
  - intros s Hs Hbad. unfold Config.readConfig, Config.EnvSchema.
    rewrite Hs, (coerceInt_rejects _ _ _ _ Hbad).
    destruct (coerceInt 1 65535 8787 (Config.PORT env)); [| done]. simpl.
    destruct (Js.trim <$> Config.UPSTREAM_URL env); [| done]. simpl.
    by destruct (negb _).
  - intros s Hs Hbad. unfold Config.readConfig, Config.EnvSchema.
    rewrite Hs. change (5 * 60000) with 300000.
    rewrite (coerceInt_rejects _ _ _ _ Hbad).
    destruct (coerceInt 1 65535 8787 (Config.PORT env)); [| done]. simpl.
    destruct (Js.trim <$> Config.UPSTREAM_URL env); [| done]. simpl.
    destruct (negb _); [done |].
    by destruct (coerceInt 1000 50000000 200000 (Config.MAX_BODY_BYTES env)).
  - intros config (u & _ & _ & _ & Hp & Hm & Ht & _)%readConfig_inr.
    split_and!; intros s Hs.
    + rewrite Hs in Hp. by apply coerceInt_accepts in Hp.
    + rewrite Hs in Hm. by apply coerceInt_accepts in Hm.
    + rewrite Hs in Ht. by apply coerceInt_accepts in Ht.
Qed.

Lemma split_append (sep : ascii) (a b : string) :
  Js.split sep (a +:+ String sep b) = Js.split sep a ++ Js.split sep b.
Proof.
  induction a as [|c a IH].
  - change (EmptyString +:+ String sep b) with (String sep b). simpl.
    by rewrite decide_True.
  - rewrite append_cons. simpl. rewrite IH.
    destruct (decide (c = sep)); [done |].
    pose proof (split_nonempty sep a). by destruct (Js.split sep a).
Qed.

Lemma parts_append (a b : string) :
  Config.parts (Some (a +:+ String "," b))
  = Config.parts (Some a) ++ Config.parts (Some b).
Proof.
  unfold Config.parts. simpl. by rewrite split_append, map_app, filter_app.
Qed.

(** X13.  Joining two ALLOWED_ORIGINS values with a comma gives the union of
    the sets each of them gives; so the order of the entries and repeated
    entries do not change the set. *)
Theorem parseAllowedOrigins_union (a b : string) :
  parseAllowedOrigins (Some (a +:+ String "," b))
  = parseAllowedOrigins (Some a) ∪ parseAllowedOrigins (Some b)
  ∧ parseAllowedOrigins (Some (a +:+ String "," b))
    = parseAllowedOrigins (Some (b +:+ String "," a))
  ∧ parseAllowedOrigins (Some (a +:+ String "," a)) = parseAllowedOrigins (Some a).
Proof using newURL Number.
  assert (∀ a b, parseAllowedOrigins (Some (a +:+ String "," b))
                 = parseAllowedOrigins (Some a) ∪ parseAllowedOrigins (Some b)) as Hunion.
  { intros a' b'. apply set_eq. intros o. unfold Config.parseAllowedOrigins.
    rewrite elem_of_union, !(foldl_addOrigin newURL Number), parts_append.
    split.
    - intros [Hd | (p & Hp & Hn)]; [by left; left |].
      apply elem_of_app in Hp as [Hp | Hp];
        [left; right; by exists p | right; right; by exists p].
    - intros [[Hd | (p & Hp & Hn)] | [Hd | (p & Hp & Hn)]];
        [by left | right; exists p | by left | right; exists p];
        (split; [apply elem_of_app; by auto | done]). }
  split_and!.
  - apply Hunion.
  - rewrite !Hunion. apply (comm_L (∪)).
  - rewrite Hunion. apply (idemp_L (∪)).
Qed.

Lemma endsWithSlash_nonempty (s : string) : endsWithSlash s = true → s ≠ EmptyString.
Proof. by intros Hs ->. Qed.

Lemma endsWithSlash_cons (a : ascii) (s : string) :
  endsWithSlash s = true → endsWithSlash (String a s) = true.
Proof.
  unfold endsWithSlash. rewrite rev_cons.
  destruct (String.rev s) as [|c r]; [done |]. rewrite append_cons.
  by destruct c as [[] [] [] [] [] [] [] []].
Qed.

(** X14.  When MCP_PATH, trimmed, ends with a slash and is not the root,
    the server started from that environment forwards no request: its proxy
    path keeps the slash, and no normalised request path has one. *)
Theorem trailing_slash_path_never_served (env : Config.Env) (p : string)
    (serverHandler : Request → Outcome) :
  Config.MCP_PATH env = Some p →
  endsWithSlash (Js.trim p) = true →
  Js.trim p ≠ "/" →
  Cli.main newURL newURLBase Number corsHeadersForOrigin env = inr serverHandler →
  ∀ req x, serverHandler req ≠ Forwarding x.
Proof.
  intros Hpath Hslash Hroot Hmain. unfold Cli.main in Hmain.
  destruct (readConfig env) as [e | config] eqn:Hr; [done |]. injection Hmain as <-.
  apply readConfig_inr in Hr as (u & _ & _ & _ & _ & _ & _ & Hmcp & _).
  rewrite Hpath in Hmcp. simpl in Hmcp.
  intros req x Hf.
  apply handler_forwarding in Hf as (url & (_ & _ & Hmatch & _) & _).
  apply (path_never_matches (mcpPath config) url); [| done].
  left. rewrite Hmcp.
  destruct (Js.startsWithSlash (Js.trim p)); [done |]. split.
  - pose proof (endsWithSlash_nonempty _ Hslash) as Hne.
    change ("/" +:+ Js.trim p) with (String "/" (Js.trim p)). congruence.
  - by apply endsWithSlash_cons.
Qed.

End Configuration.

(** ** The response heads *)

Section Answers.

Variable corsHeadersForOrigin : string → gset string → option Headers.
Variable newURL : string → string → option URL.
Variable Number : string → JsNumber.

Local Abbreviation handler := (createProxyHandler corsHeadersForOrigin newURL Number).
Local Abbreviation serve := (Proxy.serve corsHeadersForOrigin newURL Number).

(** The head a listener writes is the plain-text head of a 413 or a 502, or
    the relayed head of the upstream response it handles. *)
Lemma step_head (x : Exchange) (ev : Event) (s : Z) (h : Headers) :
  ResWriteHead s h ∈ trace (step x ev) →
  ResWriteHead s h ∈ trace x
  ∨ (h = textPlain ∧ (s = 413 ∨ s = 502))
  ∨ ∃ sc up, ev = UpstreamResponse sc up
      ∧ s = default 502 sc ∧ h = relayHeaders (cors x) up.
Proof.
  listener_cases x ev;
    rewrite ?elem_of_app, ?elem_of_cons, ?elem_of_nil;
    intuition (simplify_eq; eauto 7).
Qed.

Lemma step_cors (x : Exchange) (ev : Event) : cors (step x ev) = cors x.
Proof. by listener_cases x ev. Qed.

Lemma run_head (x : Exchange) (evs : list Event) (s : Z) (h : Headers) :
  ResWriteHead s h ∈ trace (run x evs) →
  ResWriteHead s h ∈ trace x
  ∨ (h = textPlain ∧ (s = 413 ∨ s = 502))
  ∨ ∃ sc up, UpstreamResponse sc up ∈ evs
      ∧ s = default 502 sc ∧ h = relayHeaders (cors x) up.
Proof.
  revert x. induction evs as [|ev evs IH]; intros x Hh; [by left |].
  apply IH in Hh as [Hh | [Hh | (sc & up & Hin & -> & ->)]].
  - apply step_head in Hh as [Hh | [Hh | (sc & up & -> & -> & ->)]]; [by auto.. |].
    right; right. exists sc, up. split; [by left | done].
  - by auto.
  - right; right. exists sc, up. rewrite step_cors. split; [by right | done].
Qed.

(** X16.  Every response head the proxy writes has one of four forms: the
    plain-text head of its own 400, 401, 403, 404, 413 and 502 answers,
    which carries only Content-Type and nosniff and never the CORS
    decision; the JSON head of the health check; the head of an allowed
    preflight, which is the CORS decision with nosniff; or, for an upstream
    response among the events, its status code (502 when it has none) with
    the relayed header set. *)
Theorem response_head_forms (config : Config) (req : Request)
    (evs : list Event) (tr : list Effect) (s : Z) (h : Headers) :
  serve config req evs = Some tr →
  ResWriteHead s h ∈ tr →
  (h = textPlain ∧ s ∈ [400; 401; 403; 404; 413; 502])
  ∨ (h = applicationJson ∧ s = 200)
  ∨ (s = 204 ∧ ∃ c, Route.corsOf corsHeadersForOrigin config req = Some c
                   ∧ h = <["X-Content-Type-Options" := "nosniff"]> c)
  ∨ (∃ sc up, UpstreamResponse sc up ∈ evs
        ∧ s = default 502 sc
        ∧ h = relayHeaders (Route.corsOf corsHeadersForOrigin config req) up).
Proof.
  unfold Proxy.serve. destruct (handler config req) as [| tr' | x] eqn:Hh; [done | |].
  - intros [= <-] Hin.
    unfold createProxyHandler, respond in Hh.
    repeat case_match; simplify_eq;
      rewrite !elem_of_cons, elem_of_nil in Hin;
      destruct Hin as [[= -> ->] | [[=] | []]];
      rewrite ?elem_of_cons; eauto 10.
  - intros [= <-] Hin. apply handler_forwarding in Hh as (url & _ & _ & _ & _ & ->).
    apply run_head in Hin as [Hin | [[-> Hs] | Hup]].
    + simpl in Hin. rewrite elem_of_cons, elem_of_nil in Hin. by destruct Hin.
    + left. split; [done |]. rewrite !elem_of_cons. tauto.
    + by right; right; right.
Qed.

(** X9.  The head relayed to the client is put together by exact names,
    case included.  Whatever events reach a forwarded request, a head written
    for it is the plain-text head of a 413 or 502, or it is the head of an
    upstream response among the events; the latter holds nosniff and every
    entry of the CORS decision under their own names, and it holds every
    header of the upstream response whose name is lower-case (as Node
    delivers the names), not empty and not hop-by-hop, with its value, unless
    the CORS decision has an entry of exactly that name.  So a header that
    the upstream sends as access-control-allow-origin or
    x-content-type-options is neither removed nor replaced: it goes out
    beside the proxy's own, capitalised entries. *)
Theorem relay_is_case_sensitive (config : Config) (req : Request) (x : Exchange)
    (evs : list Event) (s : Z) (h : Headers) :
  handler config req = Forwarding x →
  ResWriteHead s h ∈ trace (run x evs) →
  h = textPlain
  ∨ ∃ sc up, UpstreamResponse sc up ∈ evs
      ∧ s = default 502 sc
      ∧ h !! "X-Content-Type-Options" = Some "nosniff"
      ∧ (∀ c k v, Route.corsOf corsHeadersForOrigin config req = Some c →
           c !! k = Some v → k ≠ "X-Content-Type-Options" → h !! k = Some v)
      ∧ (∀ k, k ≠ EmptyString → Js.toLowerCase k = k → isHopByHopHeader k = false →
           (∀ c, Route.corsOf corsHeadersForOrigin config req = Some c → c !! k = None) →
           h !! k = up !! k).
Proof.
  intros Hf Hin. apply handler_forwarding in Hf as (url & _ & _ & _ & _ & ->).
  apply run_head in Hin as [Hin | [[-> _] | (sc & up & Hev & -> & ->)]].
  - simpl in Hin. rewrite elem_of_cons, elem_of_nil in Hin. by destruct Hin.
  - by left.
  - right. exists sc, up. simpl cors. split_and!; [done | done | | |].
    + apply nosniff_relayHeaders.
    + intros c k v Hc Hk Hne. unfold relayHeaders. rewrite Hc.
      rewrite lookup_insert_ne by done. by rewrite lookup_union, Hk, union_Some_l.
    + intros k Hne Hlower Hhop Hc. unfold relayHeaders.
      assert (k ≠ "X-Content-Type-Options") as Hns by (intros ->; discriminate Hlower).
      rewrite lookup_insert_ne by done.
      assert (sanitizeResponseHeaders up !! k = up !! k) as Hkeep.
      { rewrite sanitizeResponseHeaders_lookup. unfold responseHeaderKept.
        rewrite Hhop. by destruct k. }
      destruct (Route.corsOf corsHeadersForOrigin config req) as [c|]; [| done].
      rewrite lookup_union, (Hc c eq_refl), Hkeep. by destruct (up !! k).
Qed.

End Answers.

(** ** The further theorems at concrete requests and environments *)

Section MoreWitnesses.

Local Abbreviation handler := Sample.handler.
Local Abbreviation serve := (Proxy.serve Sample.cors Sample.newURL2 Sample.Number).
Local Abbreviation readConfig := (Config.readConfig Sample.newURL1 Sample.Number).

Lemma sample_readConfig : readConfig Sample.env = inr Sample.envConfig.
Proof. by vm_compute. Qed.

Lemma unreachable_proxy_path_witness :
  handler (Sample.pathConfig "/mcp/") Sample.chunkedPost
  = respond 404 textPlain (Some "Not found").
Proof.
  destruct (unreachable_proxy_path Sample.cors Sample.newURL2 Sample.Number
              (Sample.pathConfig "/mcp/") Sample.chunkedPost) as [_ H404].
  - left. split; [discriminate | reflexivity].
  - apply (H404 Sample.mcpURL).
    + split_and!; reflexivity.
    + intros [Hget _]. discriminate Hget.
Defined.

Lemma health_check_bypasses_policies_witness :
  serve (Sample.pathConfig "/health") Sample.healthGet [RequestEnd]
  = Some [ResWriteHead 200 applicationJson; ResEnd (Some healthBody)].
Proof.
  destruct (health_check_bypasses_policies Sample.cors Sample.newURL2 Sample.Number
              (Sample.pathConfig "/health") Sample.healthGet Sample.healthURL
              [RequestEnd]) as [Hserve _].
  - split_and!; reflexivity.
  - reflexivity.
  - reflexivity.
  - exact Hserve.
Defined.

Lemma size_guard_exact_witness :
  createSizeLimitStream 11 ["012345"; "67890"] = (["012345"; "67890"], None).
Proof.
  destruct (size_guard_exact 11 ["012345"; "67890"]) as (_ & Hfit & _).
  apply Hfit. vm_compute. discriminate.
Defined.

Lemma upstream_body_within_limit_witness :
  totalBytes (written (trace (run
    (dispatch (Sample.testConfig 10 None)
       (Sample.cors "https://chatgpt.com" {[ "https://chatgpt.com" ]})
       (requestOptions (Sample.testConfig 10 None) Sample.chunkedPost Sample.mcpURL))
    [RequestData "012345"; UpstreamTimeout; RequestData "67890"]))) ≤ 10.
Proof.
  destruct (upstream_body_within_limit Sample.cors Sample.newURL2 Sample.Number
              (Sample.testConfig 10 None) Sample.chunkedPost _
              [RequestData "012345"; UpstreamTimeout; RequestData "67890"]
              sample_forwarded) as [_ Hle].
  apply Hle. vm_compute. discriminate.
Defined.

Lemma single_response_head_witness :
  (length (statuses
     [UpRequest (requestOptions (Sample.testConfig 10 None) Sample.chunkedPost
                   Sample.mcpURL);
      UpWrite "012345"; UpDestroy (Some bodyTooLarge);
      ResWriteHead 413 textPlain; ResEnd (Some "Request too large")]) ≤ 1)%nat.
Proof.
  apply (single_response_head Sample.cors Sample.newURL2 Sample.Number
           (Sample.testConfig 10 None) Sample.chunkedPost
           [RequestData "012345"; RequestData "67890"; UpstreamTimeout]).
  by vm_compute.
Defined.

Lemma upstream_contacted_once_witness :
  opened [UpRequest (requestOptions (Sample.testConfig 10 None) Sample.chunkedPost
                       Sample.mcpURL);
          UpWrite "012345"; UpEnd]
  = [requestOptions (Sample.testConfig 10 None) Sample.chunkedPost Sample.mcpURL].
Proof.
  destruct (upstream_contacted_once Sample.cors Sample.newURL2 Sample.Number
              (Sample.testConfig 10 None) Sample.chunkedPost
              [RequestData "012345"; RequestEnd]
              [UpRequest (requestOptions (Sample.testConfig 10 None) Sample.chunkedPost
                            Sample.mcpURL);
               UpWrite "012345"; UpEnd]) as (_ & _ & Hurl).
  - by left.
  - reflexivity.
  - destruct (Hurl Sample.mcpURL) as [Hone Hiff].
    + split_and!; reflexivity.
    + apply Hone, Hiff. split_and!.
      * by apply sample_proxyable.
      * intros [_ Hdenied]. discriminate Hdenied.
      * intros (secret & Hsecret & _). discriminate Hsecret.
      * reflexivity.
Defined.

Lemma sanitizers_are_filters_witness :
  requestHeaderKept "Transfer-Encoding" = requestHeaderKept "TRANSFER-ENCODING".
Proof.
  destruct (sanitizers_are_filters Sample.hostResponse) as (_ & _ & _ & _ & _ & _ & Hcase).
  apply (Hcase "Transfer-Encoding" "TRANSFER-ENCODING"). reflexivity.
Defined.

Lemma relay_is_case_sensitive_witness :
  let h := relayHeaders (Sample.cors "https://chatgpt.com" {[ "https://chatgpt.com" ]})
             Sample.corsResponse in
  h !! "access-control-allow-origin" = Some "*"
  ∧ h !! "Access-Control-Allow-Origin" = Some "https://chatgpt.com"
  ∧ h !! "x-content-type-options" = Some "sniff"
  ∧ h !! "X-Content-Type-Options" = Some "nosniff".
Proof.
  intros h.
  destruct (relay_is_case_sensitive Sample.cors Sample.newURL2 Sample.Number
              (Sample.testConfig 10 None) Sample.chunkedPost _
              [UpstreamResponse (Some 200) Sample.corsResponse] 200 h sample_forwarded)
    as [Htext | (sc & up & Hin & _ & Hns & Hcors & Hup)].
  - right. by left.
  - assert (h !! "access-control-allow-origin" = textPlain !! "access-control-allow-origin")
      as Habs by (by rewrite Htext).
    vm_compute in Habs. discriminate Habs.
  - assert (up = Sample.corsResponse) as ->.
    { rewrite elem_of_cons, elem_of_nil in Hin. destruct Hin as [Heq | []].
      apply (f_equal (λ ev, match ev with
                            | UpstreamResponse _ u => u
                            | _ => up
                            end)) in Heq.
      exact Heq. }
    split_and!.
    + rewrite Hup; [reflexivity | discriminate | reflexivity | reflexivity |].
      intros c [= <-]. reflexivity.
    + apply (Hcors _ _ _ eq_refl); [reflexivity | discriminate].
    + rewrite Hup; [reflexivity | discriminate | reflexivity | reflexivity |].
      intros c [= <-]. reflexivity.
    + exact Hns.
Defined.

Lemma declared_length_precheck_witness :
  handler (Sample.testConfig 10 None) Sample.plainPost
  = respond 413 textPlain (Some "Request too large")
  ∧ handler (Sample.testConfig 11 None) Sample.plainPost
    ≠ respond 413 textPlain (Some "Request too large").
Proof.
  split.
  - destruct (declared_length_precheck Sample.cors Sample.newURL2 Sample.Number
                (Sample.testConfig 10 None) Sample.plainPost Sample.mcpURL)
      as (_ & _ & Hint & _).
    + by left.
    + by apply sample_proxyable.
    + intros [Hpresent _]. by apply Hpresent.
    + intros (secret & Hsecret & _). discriminate Hsecret.
    + apply (Hint "11" 11); [reflexivity | reflexivity |]. simpl. lia.
  - destruct (declared_length_precheck Sample.cors Sample.newURL2 Sample.Number
                (Sample.testConfig 11 None) Sample.plainPost Sample.mcpURL)
      as (_ & _ & Hint & _).
    + by left.
    + by apply sample_proxyable.
    + intros [Hpresent _]. by apply Hpresent.
    + intros (secret & Hsecret & _). discriminate Hsecret.
    + intros H413. apply (Hint "11" 11) in H413; [| reflexivity | reflexivity].
      simpl in H413. lia.
Defined.

Lemma readConfig_invariants_witness :
  1000 ≤ maxBodyBytes Sample.envConfig ≤ 50000000.
Proof.
  destruct (readConfig_invariants Sample.newURL1 Sample.Number Sample.env
              Sample.envConfig sample_readConfig) as (_ & Hmax & _).
  exact Hmax.
Defined.

Lemma readConfig_defaults_and_failures_witness :
  authBearerToken Sample.envConfig = None.
Proof.
  destruct (readConfig_defaults_and_failures Sample.newURL1 Sample.Number Sample.env)
    as (_ & _ & Hdefaults).
  destruct (Hdefaults Sample.envConfig sample_readConfig)
    as (_ & _ & _ & _ & _ & Hblank & _).
  apply (Hblank "  "); reflexivity.
Defined.

Lemma readConfig_numbers_witness :
  Config.asInteger (Sample.Number "2000") = Some (maxBodyBytes Sample.envConfig).
Proof.
  destruct (readConfig_numbers Sample.newURL1 Sample.Number Sample.env)
    as (_ & _ & _ & Hok).
  destruct (Hok Sample.envConfig sample_readConfig) as (_ & Hmax & _).
  apply Hmax. reflexivity.
Defined.

Lemma trailing_slash_path_never_served_witness :
  createProxyHandler Sample.cors Sample.newURL2 Sample.Number Sample.envConfig
    Sample.chunkedPost
  ≠ Forwarding (dispatch Sample.envConfig None
                  (requestOptions Sample.envConfig Sample.chunkedPost Sample.mcpURL)).
Proof.
  apply (trailing_slash_path_never_served Sample.newURL1 Sample.newURL2 Sample.Number
           Sample.cors Sample.env " /mcp/ "
           (createProxyHandler Sample.cors Sample.newURL2 Sample.Number
              Sample.envConfig)).
  - reflexivity.
  - reflexivity.
  - discriminate.
  - unfold Cli.main. by rewrite sample_readConfig.
Defined.

Lemma response_head_forms_witness :
  (relayHeaders None Sample.hostResponse = textPlain
   ∧ 418 ∈ [400; 401; 403; 404; 413; 502])
  ∨ (relayHeaders None Sample.hostResponse = applicationJson ∧ 418 = 200)
  ∨ (418 = 204
     ∧ ∃ c, Route.corsOf Sample.cors (Sample.testConfig 200000 None) Sample.barePost
            = Some c
          ∧ relayHeaders None Sample.hostResponse
            = <["X-Content-Type-Options" := "nosniff"]> c)
  ∨ (∃ sc up, UpstreamResponse sc up
                ∈ [UpstreamResponse (Some 418) Sample.hostResponse]
        ∧ 418 = default 502 sc
        ∧ relayHeaders None Sample.hostResponse
          = relayHeaders (Route.corsOf Sample.cors (Sample.testConfig 200000 None)
                            Sample.barePost) up).
Proof.
  apply (response_head_forms Sample.cors Sample.newURL2 Sample.Number
           (Sample.testConfig 200000 None) Sample.barePost
           [UpstreamResponse (Some 418) Sample.hostResponse]
           [UpRequest (requestOptions (Sample.testConfig 200000 None) Sample.barePost
                         Sample.mcpURL);
            ResWriteHead 418 (relayHeaders None Sample.hostResponse); ResPipe]).
  - reflexivity.
  - right. by left.
Defined.

End MoreWitnesses.
